(** * Hierarchical task views of the Checkvist MCP server

    A shallow embedding of the four tree-shaped read-only tools of the
    server's request handler ([checkvist_get_tasks_summary],
    [checkvist_get_task_tree], [checkvist_get_checklist_stats] and
    [checkvist_get_tasks_paginated]) together with the properties of the
    renderer that the specification states about them.

    Conventions of the embedding.
    - A task record is the JSON object the Checkvist API returns.  Numbers
      that the handler only compares and prints (ids, status, priority,
      [max_depth], [page]) are integers ([Z]); lengths and the recursion
      depth are naturals.
    - A JavaScript string is a [string]; its [length] and [substring] are
      those of [String], one character standing for one code unit.
    - The handler's [Map] from id to record is a [gmap Z Task].
    - The text a view returns is built from chunks.  Every template literal
      the handler appends is one [Line], tagged with what it is (a task
      line, a note line, an elision marker, or header/footer text); the
      returned text is the concatenation [render] of the chunks.
    - The recursive closures [formatTask] and [getDepth] are written with
      fuel; running out of fuel ([None]) stands for a recursion that has not
      returned yet. *)

From Stdlib Require Import ZArith QArith.
From stdpp Require Import base option list gmap strings pretty.

Local Open Scope Z_scope.

(** ** Task records *)

Record Note := { comment : string }.

(** [status]: 0 is open, 1 is closed, 2 is invalidated.  [tasks] is the
    ordered list of child ids; the field can be missing. *)
Record Task := {
  id : Z;
  parent_id : Z;
  content : string;
  status : Z;
  tasks : option (list Z);
  due : option string;
  priority : option Z;
  tags_as_text : option string;
  notes : option (list Note)
}.

(** ** Output chunks *)

Inductive Line :=
  | Plain (text : string)
  | TaskLine (taskId : Z) (text : string)
  | NoteLine (text : string)
  | Marker (count : nat) (text : string).

Definition line_text (l : Line) : string :=
  match l with
  | Plain s | TaskLine _ s | NoteLine s | Marker _ s => s
  end.

Definition render (out : list Line) : string :=
  String.concat "" (line_text <$> out).

(** The ids of the task lines of an output, in output order. *)
Definition task_ids (out : list Line) : list Z :=
  omap (fun l => match l with TaskLine i _ => Some i | _ => None end) out.

Definition is_marker (l : Line) : bool :=
  match l with Marker _ _ => true | _ => false end.

Definition markers (out : list Line) : list Line :=
  filter (fun l => is_marker l) out.

(** What a tool call gives back: a result, or a thrown [Error]. *)
Inductive Outcome (A : Type) :=
  | Returned (a : A)
  | Thrown (message : string).
Arguments Returned {A} a.
Arguments Thrown {A} message.

(** ** JavaScript helpers *)

(** [s.repeat(n)] *)
Fixpoint repeat_str (s : string) (n : nat) : string :=
  match n with
  | O => ""
  | S n' => s +:+ repeat_str s n'
  end.

(** Truthiness of an optional string ([null], [undefined] and [''] are
    falsy) and of an optional number ([0] is falsy). *)
Definition truthy_str (o : option string) : bool :=
  match o with
  | Some s => negb (String.eqb s "")
  | None => false
  end.

Definition truthy_num (o : option Z) : bool :=
  match o with
  | Some n => negb (n =? 0)
  | None => false
  end.

Definition str_of (o : option string) : string := default "" o.
Definition num_of (o : option Z) : Z := default 0 o.

(** [task.tasks && task.tasks.length > 0] *)
Definition has_subtasks (task : Task) : bool :=
  match tasks task with
  | Some (_ :: _) => true
  | _ => false
  end.

(** The child ids that [task.tasks.forEach] runs over. *)
Definition subtasks (task : Task) : list Z := default [] (tasks task).

(** [task.notes && task.notes.length > 0] *)
Definition has_notes (task : Task) : bool :=
  match notes task with
  | Some (_ :: _) => true
  | _ => false
  end.

Definition notes_of (task : Task) : list Note := default [] (notes task).

(** [s.length > n ? s.substring(0, n) + '...' : s] *)
Definition truncate (n : nat) (s : string) : string :=
  if (n <? String.length s)%nat then String.substring 0 n s +:+ "..." else s.

(** [new Map(); allTasks.forEach(task => taskMap.set(task.id, task))] *)
Definition taskMap (allTasks : list Task) : gmap Z Task :=
  fold_left (fun m task => <[id task := task]> m) allTasks ∅.

(** [allTasks.filter(task => task.parent_id === 0)] *)
Definition topLevel (allTasks : list Task) : list Task :=
  filter (fun task => parent_id task = 0) allTasks.

(** The glyphs of the handler, as the source file spells them. *)
Definition CHECK : string := "âœ“".
Definition CROSS : string := "âœ—".
Definition MEMO : string := "ğŸ“".
Definition CLIPBOARD : string := "ğŸ“‹".
Definition ZAP : string := "âš¡".
Definition BULB : string := "ğŸ’¡".
Definition CALENDAR : string := "ğŸ“…".
Definition WARNING : string := "âš ï¸".
Definition LABEL : string := "ğŸ·ï¸".
Definition SPEECH : string := "ğŸ’¬".
Definition TREE : string := "ğŸŒ³".
Definition CHART : string := "ğŸ“Š".
Definition PIN : string := "ğŸ“Œ".
Definition PAGE : string := "ğŸ“„".
Definition DONE : string := "âœ…".

(** The line feed of the template literals. *)
Definition NL : string := String (Ascii.ascii_of_nat 10) "".


(** ** The walk the three renderers share

    Each [formatTask] closure of the handler has the same control flow: look
    the id up; leave with the empty string when it is absent or filtered
    out; otherwise emit the task's own chunks, then either recurse into the
    children (while [depth < maxDepth]) or emit what the view prints in
    place of the children.  [walk_fuel] is that control flow, with the
    view-specific parts as parameters; the closures below are written out
    from the source and proved to be instances of it. *)

Section Walk.
Context (m : gmap Z Task) (maxDepth : Z).
Context (skip : Task -> bool).
Context (own : Task -> nat -> list Line).
Context (elided : Task -> nat -> list Line).

Fixpoint walk_fuel (fuel : nat) (taskId : Z) (depth : nat)
    : option (list Line) :=
  match fuel with
  | O => None
  | S fuel' =>
    match m !! taskId with
    | None => Some []
    | Some task =>
      if skip task then Some []
      else if (Z.of_nat depth <? maxDepth) && has_subtasks task then
        subs ← mapM (fun subtaskId => walk_fuel fuel' subtaskId (S depth))
                    (subtasks task);
        Some (own task depth ++ concat subs)
      else if has_subtasks task then
        Some (own task depth ++ elided task depth)
      else Some (own task depth)
    end
  end.

(** The fuel that is always enough: one unit per level left. *)
Definition budget (depth : nat) : nat :=
  S (Z.to_nat (maxDepth - Z.of_nat depth)).

Definition walk (taskId : Z) (depth : nat) : list Line :=
  default [] (walk_fuel (budget depth) taskId depth).
End Walk.

(** ** [checkvist_get_tasks_summary]

    The handler calls the fetched array [tasks]; it is [allTasks] here, as
    in the other three handlers, because [tasks] is also the name of the
    child list of a record. *)

Module Summary.

Record Args := {
  checklist_id : Z;
  max_depth : option Z;
  include_closed : option bool;
  compact : option bool;
  preview : option bool
}.

Section View.
Context (args : Args) (allTasks : list Task).

Definition isPreview : bool := bool_decide (preview args = Some true).
Definition maxDepth : Z :=
  if isPreview then 1 else default 99 (max_depth args).
Definition includeClosed : bool :=
  bool_decide (include_closed args = Some true).
Definition compactMode : bool :=
  if isPreview then true else bool_decide (compact args = Some true).

(** The task line of the compact branch. *)
Definition compactLine (task : Task) (depth : nat) : Line :=
  let indent := repeat_str "  " depth in
  let status :=
    if status task =? 1 then CHECK
    else if status task =? 2 then CROSS else " " in
  TaskLine (id task)
    (indent +:+ "[" +:+ status +:+ "] " +:+ content task +:+
     " [" +:+ pretty (id task) +:+ "]" +:+ NL).

(** The task line of the full branch. *)
Definition fullLine (task : Task) (depth : nat) : Line :=
  let indent := repeat_str "  " depth in
  let status := if status task =? 1 then "[" +:+ CHECK +:+ "]" else "[ ]" in
  let due :=
    if truthy_str (due task)
    then " (due: " +:+ str_of (due task) +:+ ")" else "" in
  let priority :=
    if truthy_num (priority task)
    then " !" +:+ pretty (num_of (priority task)) else "" in
  let tags :=
    if truthy_str (tags_as_text task)
    then " #" +:+ str_of (tags_as_text task) else "" in
  TaskLine (id task)
    (indent +:+ status +:+ " " +:+ content task +:+ due +:+ priority +:+
     tags +:+ " [ID: " +:+ pretty (id task) +:+ "]" +:+ NL).

(** [task.notes.forEach(note => result += ...)] of the full branch. *)
Definition noteLines (task : Task) (depth : nat) : list Line :=
  let indent := repeat_str "  " depth in
  if has_notes task then
    (fun note =>
       NoteLine (indent +:+ "  " +:+ MEMO +:+ " " +:+ comment note +:+ NL))
    <$> notes_of task
  else [].

(** The line of the full branch that stands for the children. *)
Definition moreLine (task : Task) (depth : nat) : Line :=
  let indent := repeat_str "  " depth in
  Marker (length (subtasks task))
    (indent +:+ "  ... (" +:+ pretty (length (subtasks task)) +:+
     " more subtasks, increase max_depth to see)" +:+ NL).

(** The closure [formatTask(taskId, depth, prefix)]; its third argument
    is passed along and never read, and is left out. *)
Fixpoint formatTask_fuel (fuel : nat) (taskId : Z) (depth : nat)
    : option (list Line) :=
  match fuel with
  | O => None
  | S fuel' =>
    match taskMap allTasks !! taskId with
    | None => Some []
    | Some task =>
      if negb includeClosed && (status task =? 1) then Some []
      else if compactMode then
        let result := [compactLine task depth] in
        if (Z.of_nat depth <? maxDepth) && has_subtasks task then
          subs ← mapM (fun subtaskId =>
                         formatTask_fuel fuel' subtaskId (S depth))
                      (subtasks task);
          Some (result ++ concat subs)
        else Some result
      else
        let result := [fullLine task depth] ++ noteLines task depth in
        if (Z.of_nat depth <? maxDepth) && has_subtasks task then
          subs ← mapM (fun subtaskId =>
                         formatTask_fuel fuel' subtaskId (S depth))
                      (subtasks task);
          Some (result ++ concat subs)
        else if has_subtasks task then
          Some (result ++ [moreLine task depth])
        else Some result
    end
  end.

Definition formatTask (taskId : Z) (depth : nat) : list Line :=
  default [] (formatTask_fuel (budget maxDepth depth) taskId depth).

Definition header : list Line :=
  [Plain (CLIPBOARD +:+ " Checklist Summary (" +:+
          pretty (length (topLevel allTasks)) +:+ " top-level tasks, " +:+
          pretty (length allTasks) +:+ " total)" +:+ NL)] ++
  (if isPreview then
     [Plain (ZAP +:+ " PREVIEW MODE: Showing only top-level tasks" +:+ NL)]
   else if compactMode then
     [Plain ("COMPACT MODE: Showing only task titles and IDs" +:+ NL)]
   else []) ++
  [Plain ("Showing " +:+
          (if maxDepth =? 99 then "all levels"
           else "up to " +:+ pretty maxDepth +:+ " levels") +:+ ", " +:+
          (if includeClosed then "including" else "excluding") +:+
          " closed tasks" +:+ NL +:+ NL)].

(** [topLevelTasks.forEach(task => summary += formatTask(task.id, 0, ''))] *)
Definition body : list Line :=
  concat ((fun task => formatTask (id task) 0) <$> topLevel allTasks).

Definition footer : list Line :=
  if isPreview then
    [Plain (NL +:+ BULB +:+ " TIP: Use checkvist_get_task_tree with a specific task ID to explore subtasks" +:+ NL);
     Plain ("     Or use max_depth=2 to see one more level" +:+ NL)]
  else if compactMode then
    [Plain (NL +:+ BULB +:+ " Use checkvist_get_task_tree with a specific task ID to see full details" +:+ NL)]
  else [].

Definition run : list Line := header ++ body ++ footer.

(** The parameters that make [formatTask] an instance of [walk]. *)
Definition skip (task : Task) : bool :=
  negb includeClosed && (status task =? 1).
Definition own (task : Task) (depth : nat) : list Line :=
  if compactMode then [compactLine task depth]
  else [fullLine task depth] ++ noteLines task depth.
Definition elided (task : Task) (depth : nat) : list Line :=
  if compactMode then [] else [moreLine task depth].
End View.
End Summary.

(** ** [checkvist_get_task_tree] *)

Module TaskTree.

Record Args := {
  checklist_id : Z;
  task_id : Z;
  include_closed : option bool;
  max_depth : option Z;
  compact : option bool;
  with_notes : option bool
}.

Section View.
Context (args : Args) (allTasks : list Task).

Definition withNotes : bool := bool_decide (with_notes args = Some true).
Definition includeClosed : bool :=
  bool_decide (include_closed args = Some true).
Definition maxDepth : Z := default 3 (max_depth args).
Definition compactMode : bool := bool_decide (compact args = Some true).

Definition compactLine (task : Task) (depth : nat) : Line :=
  let indent := repeat_str "  " depth in
  let truncated := truncate 50 (content task) in
  TaskLine (id task)
    (indent +:+ pretty (id task) +:+ ": " +:+ truncated +:+ NL).

Definition compactMore (task : Task) (depth : nat) : Line :=
  let indent := repeat_str "  " depth in
  Marker (length (subtasks task))
    (indent +:+ "  ... (" +:+ pretty (length (subtasks task)) +:+
     " more, use max_depth=" +:+ pretty (maxDepth + 1) +:+ ")" +:+ NL).

Definition fullLine (task : Task) (depth : nat) : Line :=
  let indent := repeat_str "  " depth in
  let status :=
    if status task =? 1 then "[" +:+ CHECK +:+ "]"
    else if status task =? 2 then "[" +:+ CROSS +:+ "]" else "[ ]" in
  let due :=
    if truthy_str (due task)
    then " " +:+ CALENDAR +:+ " " +:+ str_of (due task) else "" in
  let priority :=
    if truthy_num (priority task)
    then " " +:+ WARNING +:+ " P" +:+ pretty (num_of (priority task))
    else "" in
  let tags :=
    if truthy_str (tags_as_text task)
    then " " +:+ LABEL +:+ " " +:+ str_of (tags_as_text task) else "" in
  TaskLine (id task)
    (indent +:+ status +:+ " " +:+ content task +:+ due +:+ priority +:+
     tags +:+ " [" +:+ pretty (id task) +:+ "]" +:+ NL).

(** At most two notes, each cut at 150 characters, then the count of
    the notes left out. *)
Definition noteLines (task : Task) (depth : nat) : list Line :=
  let indent := repeat_str "  " depth in
  if withNotes && has_notes task then
    let notesToShow := take 2 (notes_of task) in
    ((fun note =>
        let noteText := truncate 150 (comment note) in
        NoteLine (indent +:+ "  " +:+ SPEECH +:+ " " +:+ noteText +:+ NL))
     <$> notesToShow) ++
    (if (2 <? length (notes_of task))%nat then
       [NoteLine (indent +:+ "  ... (" +:+
                  pretty (length (notes_of task) - 2)%nat +:+
                  " more notes)" +:+ NL)]
     else [])
  else [].

Definition fullMore (task : Task) (depth : nat) : Line :=
  let indent := repeat_str "  " depth in
  Marker (length (subtasks task))
    (indent +:+ "  ... (" +:+ pretty (length (subtasks task)) +:+
     " more subtasks, use max_depth=" +:+ pretty (maxDepth + 1) +:+ ")" +:+
     NL).

(** The closure [formatTask(taskId, depth)]. *)
Fixpoint formatTask_fuel (fuel : nat) (taskId : Z) (depth : nat)
    : option (list Line) :=
  match fuel with
  | O => None
  | S fuel' =>
    match taskMap allTasks !! taskId with
    | None => Some []
    | Some task =>
      if negb includeClosed && (status task =? 1) then Some []
      else if compactMode then
        let result := [compactLine task depth] in
        if (Z.of_nat depth <? maxDepth) && has_subtasks task then
          subs ← mapM (fun subtaskId =>
                         formatTask_fuel fuel' subtaskId (S depth))
                      (subtasks task);
          Some (result ++ concat subs)
        else if (maxDepth <=? Z.of_nat depth) && has_subtasks task then
          Some (result ++ [compactMore task depth])
        else Some result
      else
        let result := [fullLine task depth] ++ noteLines task depth in
        if (Z.of_nat depth <? maxDepth) && has_subtasks task then
          subs ← mapM (fun subtaskId =>
                         formatTask_fuel fuel' subtaskId (S depth))
                      (subtasks task);
          Some (result ++ concat subs)
        else if (maxDepth <=? Z.of_nat depth) && has_subtasks task then
          Some (result ++ [fullMore task depth])
        else Some result
    end
  end.

Definition formatTask (taskId : Z) (depth : nat) : list Line :=
  default [] (formatTask_fuel (budget maxDepth depth) taskId depth).

Definition run : Outcome (list Line) :=
  match taskMap allTasks !! task_id args with
  | None =>
    Thrown ("Task " +:+ pretty (task_id args) +:+
            " not found in checklist " +:+ pretty (checklist_id args))
  | Some rootTask =>
    Returned
      ([Plain (TREE +:+ " Task: " +:+ content rootTask +:+ NL);
        Plain ("Depth: " +:+ pretty maxDepth +:+ ", " +:+
               (if compactMode then "Compact" else "Full") +:+ " mode" +:+
               NL +:+ NL)] ++
       formatTask (task_id args) 0)
  end.

Definition skip (task : Task) : bool :=
  negb includeClosed && (status task =? 1).
Definition own (task : Task) (depth : nat) : list Line :=
  if compactMode then [compactLine task depth]
  else [fullLine task depth] ++ noteLines task depth.
Definition elided (task : Task) (depth : nat) : list Line :=
  if compactMode then [compactMore task depth] else [fullMore task depth].
End View.
End TaskTree.

(** ** [checkvist_get_tasks_paginated] *)

Module Paginated.

(** The tool's inputs, as its input schema lists them. *)
Record Args := {
  checklist_id : Z;
  page : Z;
  compact : option bool;
  max_depth : option Z;
  ultra_compact : option bool
}.

(** [Math.ceil(n / pageSize)] for a length [n] and a positive page size. *)
Definition ceil_div (n pageSize : nat) : nat :=
  ((n + pageSize - 1) / pageSize)%nat.

(** [list.slice(startIdx, endIdx)] for indices within the list. *)
Definition slice {A} (l : list A) (startIdx endIdx : nat) : list A :=
  take (endIdx - startIdx) (drop startIdx l).

Section View.
Context (args : Args) (allTasks : list Task).

Definition compactMode : bool :=
  negb (bool_decide (compact args = Some false)).
Definition pageNum : Z := page args.
Definition pageSize : nat := 1.
Definition maxDepth : Z := default 2 (max_depth args).
Definition ultraCompact : bool :=
  bool_decide (ultra_compact args = Some true).

Definition topLevelTasks : list Task := topLevel allTasks.
Definition totalPages : Z :=
  Z.of_nat (ceil_div (length topLevelTasks) pageSize).

Definition ultraLine (task : Task) (depth : nat) : Line :=
  let indent := repeat_str "  " depth in
  let truncated := truncate 40 (content task) in
  TaskLine (id task)
    (indent +:+ pretty (id task) +:+ ": " +:+ truncated +:+ NL).

Definition compactLine (task : Task) (depth : nat) : Line :=
  let indent := repeat_str "  " depth in
  let status :=
    if status task =? 1 then CHECK
    else if status task =? 2 then CROSS else " " in
  TaskLine (id task)
    (indent +:+ "[" +:+ status +:+ "] " +:+ content task +:+
     " [" +:+ pretty (id task) +:+ "]" +:+ NL).

Definition fullLine (task : Task) (depth : nat) : Line :=
  let indent := repeat_str "  " depth in
  let status :=
    if status task =? 1 then "[" +:+ CHECK +:+ "]"
    else if status task =? 2 then "[" +:+ CROSS +:+ "]" else "[ ]" in
  let due :=
    if truthy_str (due task)
    then " " +:+ CALENDAR +:+ " " +:+ str_of (due task) else "" in
  let priority :=
    if truthy_num (priority task)
    then " " +:+ WARNING +:+ " P" +:+ pretty (num_of (priority task))
    else "" in
  let tags :=
    if truthy_str (tags_as_text task)
    then " " +:+ LABEL +:+ " " +:+ str_of (tags_as_text task) else "" in
  TaskLine (id task)
    (indent +:+ status +:+ " " +:+ content task +:+ due +:+ priority +:+
     tags +:+ " [ID: " +:+ pretty (id task) +:+ "]" +:+ NL).

Definition moreLine (task : Task) (depth : nat) : Line :=
  let indent := repeat_str "  " depth in
  Marker (length (subtasks task))
    (indent +:+ "  ... (" +:+ pretty (length (subtasks task)) +:+
     " more)" +:+ NL).

(** The closure [formatTask(taskId, depth)]; it reads no status filter. *)
Fixpoint formatTask_fuel (fuel : nat) (taskId : Z) (depth : nat)
    : option (list Line) :=
  match fuel with
  | O => None
  | S fuel' =>
    match taskMap allTasks !! taskId with
    | None => Some []
    | Some task =>
      if ultraCompact then
        let result := [ultraLine task depth] in
        if (Z.of_nat depth <? maxDepth) && has_subtasks task then
          subs ← mapM (fun subtaskId =>
                         formatTask_fuel fuel' subtaskId (S depth))
                      (subtasks task);
          Some (result ++ concat subs)
        else Some result
      else if compactMode then
        let result := [compactLine task depth] in
        if (Z.of_nat depth <? maxDepth) && has_subtasks task then
          subs ← mapM (fun subtaskId =>
                         formatTask_fuel fuel' subtaskId (S depth))
                      (subtasks task);
          Some (result ++ concat subs)
        else if (maxDepth <=? Z.of_nat depth) && has_subtasks task then
          Some (result ++ [moreLine task depth])
        else Some result
      else
        let result := [fullLine task depth] in
        if (Z.of_nat depth <? maxDepth) && has_subtasks task then
          subs ← mapM (fun subtaskId =>
                         formatTask_fuel fuel' subtaskId (S depth))
                      (subtasks task);
          Some (result ++ concat subs)
        else if (maxDepth <=? Z.of_nat depth) && has_subtasks task then
          Some (result ++ [moreLine task depth])
        else Some result
    end
  end.

Definition formatTask (taskId : Z) (depth : nat) : list Line :=
  default [] (formatTask_fuel (budget maxDepth depth) taskId depth).

Definition header : list Line :=
  [Plain (PAGE +:+ " Page " +:+ pretty pageNum +:+ "/" +:+
          pretty totalPages +:+ NL);
   Plain ("Total: " +:+ pretty (length topLevelTasks) +:+
          " top-level, " +:+ pretty (length allTasks) +:+ " overall" +:+
          NL)] ++
  (if ultraCompact then [Plain "Mode: ULTRA (ID + 40 chars), "]
   else if compactMode then [Plain "Mode: Compact, "] else []) ++
  [Plain ("Depth: " +:+ pretty maxDepth +:+ NL +:+ NL)].

Definition footer : list Line :=
  if pageNum <? totalPages then
    [Plain (NL +:+ PIN +:+ " More pages available. Use page=" +:+
            pretty (pageNum + 1) +:+ " to continue reading." +:+ NL)] ++
    (if maxDepth <? 99 then
       [Plain ("   (If tasks are cut off, you can increase max_depth to see more subtasks)" +:+ NL)]
     else [])
  else
    [Plain (NL +:+ DONE +:+ " End of checklist. You have read all " +:+
            pretty (length topLevelTasks) +:+ " top-level tasks." +:+ NL)] ++
    (if maxDepth <? 99 then
       [Plain ("   (Some deep subtasks may have been hidden due to max_depth=" +:+
               pretty maxDepth +:+ ")" +:+ NL)]
     else []).

(** The top-level tasks of the requested page. *)
Definition pageTasks : list Task :=
  let startIdx := (Z.to_nat (pageNum - 1) * pageSize)%nat in
  let endIdx := Nat.min (startIdx + pageSize) (length topLevelTasks) in
  slice topLevelTasks startIdx endIdx.

Definition body : list Line :=
  concat ((fun task => formatTask (id task) 0 ++ [Plain NL]) <$> pageTasks).

Definition run : Outcome (list Line) :=
  if (pageNum <? 1) || (totalPages <? pageNum) then
    Thrown ("Invalid page " +:+ pretty pageNum +:+ ". Valid pages: 1-" +:+
            pretty totalPages)
  else Returned (header ++ body ++ footer).

Definition skip (task : Task) : bool := false.
Definition own (task : Task) (depth : nat) : list Line :=
  if ultraCompact then [ultraLine task depth]
  else if compactMode then [compactLine task depth]
  else [fullLine task depth].
Definition elided (task : Task) (depth : nat) : list Line :=
  if ultraCompact then [] else [moreLine task depth].
End View.
End Paginated.

(** ** [checkvist_get_checklist_stats] *)

Module Stats.

(** The values a division of two array lengths can take.  [0/0] is [NaN]
    and [n/0] is [Infinity]; neither raises. *)
Inductive JsNum :=
  | JNaN
  | JInfinity
  | JFinite (q : Q).

Definition js_div (a b : nat) : JsNum :=
  match b, a with
  | O, O => JNaN
  | O, S _ => JInfinity
  | S _, _ => JFinite (Z.of_nat a # Pos.of_nat b)
  end.

Definition js_mul (x : JsNum) (k : Z) : JsNum :=
  match x with
  | JFinite q => JFinite (q * inject_Z k)
  | other => other
  end.

Record Args := { checklist_id : Z }.

Section View.
(** [x.toFixed(1)] for a finite [x]: the decimal rounding of a double is
    not modelled and stays a parameter. *)
Context (toFixed1_finite : Q -> string).
Context (args : Args) (allTasks : list Task).

Definition toFixed1 (x : JsNum) : string :=
  match x with
  | JNaN => "NaN"
  | JInfinity => "Infinity"
  | JFinite q => toFixed1_finite q
  end.

Definition topLevelTasks : list Task := topLevel allTasks.
Definition closedTasks : list Task :=
  filter (fun task => status task = 1) allTasks.
Definition tasksWithNotes : list Task :=
  filter (fun task => has_notes task) allTasks.

(** The total the view reports: [allTasks.length]. *)
Definition total : nat := length allTasks.

(** The closure [getDepth(taskId, currentDepth)].  The child depths are
    never empty where [Math.max] is applied to them, so the maximum of
    the list is [max_list]. *)
Fixpoint getDepth_fuel (fuel : nat) (taskId : Z) (currentDepth : nat)
    : option nat :=
  match fuel with
  | O => None
  | S fuel' =>
    match taskMap allTasks !! taskId with
    | None => Some currentDepth
    | Some task =>
      if negb (has_subtasks task) then Some currentDepth
      else
        childDepths ← mapM (fun childId =>
                              getDepth_fuel fuel' childId (S currentDepth))
                           (subtasks task);
        Some (max_list childDepths)
    end
  end.

(** [((closedTasks.length / allTasks.length) * 100).toFixed(1)] *)
Definition closedPercent : string :=
  toFixed1 (js_mul (js_div (length closedTasks) (length allTasks)) 100).

(** [depths.length > 0 ? (sum / depths.length).toFixed(1) : 0] *)
Definition avgDepth (depths : list nat) : string :=
  if (0 <? length depths)%nat
  then toFixed1 (js_div (sum_list depths) (length depths))
  else "0".

Definition recommendation : list Line :=
  if (length allTasks <? 50)%nat then
    [Plain ("   Small checklist - use checkvist_get_tasks_summary with default settings" +:+ NL)]
  else if (length allTasks <? 200)%nat then
    [Plain ("   Medium checklist - use checkvist_get_tasks_summary with compact=true" +:+ NL)]
  else
    [Plain ("   Large checklist - use checkvist_get_tasks_paginated with max_depth=3" +:+ NL);
     Plain ("   This will show " +:+ pretty (length topLevelTasks) +:+
            " pages (1 top-level task per page)" +:+ NL)].

Definition report (depths : list nat) : list Line :=
  let maxDepth := max_list depths in
  [Plain (CHART +:+ " Checklist Statistics" +:+ NL);
   Plain ("Checklist ID: " +:+ pretty (checklist_id args) +:+ NL +:+ NL);
   Plain (MEMO +:+ " Total tasks: " +:+ pretty total +:+ NL);
   Plain (PIN +:+ " Top-level tasks: " +:+
          pretty (length topLevelTasks) +:+ NL);
   Plain (CHECK +:+ " Closed tasks: " +:+ pretty (length closedTasks) +:+
          " (" +:+ closedPercent +:+ "%)" +:+ NL);
   Plain (SPEECH +:+ " Tasks with notes: " +:+
          pretty (length tasksWithNotes) +:+ NL +:+ NL);
   Plain (MEMO +:+ " Depth statistics:" +:+ NL);
   Plain ("   Maximum depth: " +:+ pretty maxDepth +:+ " levels" +:+ NL);
   Plain ("   Average depth: " +:+ avgDepth depths +:+ " levels" +:+ NL +:+
          NL);
   Plain (BULB +:+ " Recommendation:" +:+ NL)] ++
  recommendation.

(** The view returns once every [getDepth] call of
    [topLevelTasks.map(task => getDepth(task.id, 0))] has. *)
Definition run_fuel (fuel : nat) : option (list Line) :=
  depths ← mapM (fun task => getDepth_fuel fuel (id task) 0) topLevelTasks;
  Some (report depths).
End View.
End Stats.

(** ** The tag monitor, [scripts/check-cc-tags.js]

    The script selects the tasks whose tag text contains [cc], has each one
    answered, and sends a rewritten tag text.  The selection and the
    rewriting are pure string computations; they are modelled here with the
    three string methods they use. *)

Module CcTags.

(** The remainder of [s] after its first [n] characters. *)
Fixpoint skipn (n : nat) (s : string) : string :=
  match n, s with
  | O, _ => s
  | S n', String _ s' => skipn n' s'
  | S _, EmptyString => EmptyString
  end.

(** [s.includes(p)]: [p] occurs in [s] at some position. *)
Fixpoint includes (s p : string) : bool :=
  String.prefix p s ||
  match s with
  | EmptyString => false
  | String _ s' => includes s' p
  end.

(** [s.replace(p, r)] for a string pattern [p] and a replacement [r] with
    no [$]: the first occurrence of [p] is replaced, the rest is kept. *)
Fixpoint replace (s p r : string) : string :=
  if String.prefix p s then r +:+ skipn (String.length p) s
  else
    match s with
    | EmptyString => EmptyString
    | String c s' => String c (replace s' p r)
    end.

(** White space and line terminators, among the code units below 256:
    tab, line feed, vertical tab, form feed, carriage return, space and
    no-break space. *)
Definition is_white (c : Ascii.ascii) : bool :=
  let n := Ascii.nat_of_ascii c in
  ((9 <=? n) && (n <=? 13) || (n =? 32) || (n =? 160))%nat.

Fixpoint trimStart (s : string) : string :=
  match s with
  | EmptyString => EmptyString
  | String c s' => if is_white c then trimStart s' else s
  end.

Fixpoint trimEnd (s : string) : string :=
  match s with
  | EmptyString => EmptyString
  | String c s' =>
    match trimEnd s' with
    | EmptyString => if is_white c then EmptyString else String c EmptyString
    | rest => String c rest
    end
  end.

(** [s.trim()] *)
Definition trim (s : string) : string := trimEnd (trimStart s).

(** [task.tags_as_text && task.tags_as_text.includes('cc')] *)
Definition isCcTask (task : Task) : bool :=
  truthy_str (tags_as_text task) && includes (str_of (tags_as_text task)) "cc".

(** [tasks.filter(...)] *)
Definition ccTasks (allTasks : list Task) : list Task :=
  filter (fun task => isCcTask task) allTasks.

(** [task.tags_as_text.replace('cc', 'cc-svar').trim()] *)
Definition newTags (task : Task) : string :=
  trim (replace (str_of (tags_as_text task)) "cc" "cc-svar").

End CcTags.

(** ** Notions the properties are stated with *)

(** The closed status, as the filters test it: [task.status === 1]. *)
Definition closed (task : Task) : bool := status task =? 1.

(** [child_of m parent child]: the record under [parent] lists [child]. *)
Definition child_of (m : gmap Z Task) (parent child : Z) : Prop :=
  exists task, m !! parent = Some task /\ child ∈ subtasks task.

(** [linked m maxDepth skip root depth x]: starting at [root], which sits
    at [depth], the id [x] is the id of a record reached by following child
    references downwards, through records that are present and not
    skipped, entering children only from a depth below [maxDepth]. *)
Inductive linked (m : gmap Z Task) (maxDepth : Z) (skip : Task -> bool)
    : Z -> nat -> Z -> Prop :=
  | linked_here (root : Z) (depth : nat) (task : Task) :
      m !! root = Some task -> skip task = false ->
      linked m maxDepth skip root depth (id task)
  | linked_below (root : Z) (depth : nat) (task : Task) (child x : Z) :
      m !! root = Some task -> skip task = false ->
      Z.of_nat depth < maxDepth -> child ∈ subtasks task ->
      linked m maxDepth skip child (S depth) x ->
      linked m maxDepth skip root depth x.


(** *** Forests and their flat encoding

    The shape the API's flat list describes when it is consistent: a
    forest of records, each record naming its children in order and each
    child naming its parent. *)

#[local] Unset Elimination Schemes.
Inductive Tree := Node (record : Task) (kids : list Tree).

Definition root (t : Tree) : Task := match t with Node record _ => record end.

(** The records of a tree, parents before children. *)
Fixpoint flatten (t : Tree) : list Task :=
  match t with
  | Node record kids => record :: concat (flatten <$> kids)
  end.

(** Levels below the root. *)
Fixpoint height (t : Tree) : nat :=
  match t with
  | Node _ [] => O
  | Node _ kids => S (max_list (height <$> kids))
  end.

(** [encodes parent t]: the records of [t] spell out the tree [t] hanging
    under [parent]: the [parent_id] of the root is [parent], its child list
    names the roots of its subtrees in order, and so on downwards. *)
Inductive encodes : Z -> Tree -> Prop :=
  | encodes_node (parent : Z) (record : Task) (kids : list Tree) :
      parent_id record = parent ->
      subtasks record = (fun kid => id (root kid)) <$> kids ->
      Forall (encodes (id record)) kids ->
      encodes parent (Node record kids).
#[local] Set Elimination Schemes.

(** A flat list is the encoding of a forest when it holds exactly the
    forest's records, in any order, under ids that are unique and not the
    [0] that marks the top level. *)
Record encodes_forest (allTasks : list Task) (forest : list Tree) : Prop := {
  forest_records : allTasks ≡ₚ concat (flatten <$> forest);
  forest_ids_unique : NoDup (id <$> allTasks);
  forest_ids_nonzero : Forall (fun task => id task <> 0) allTasks;
  forest_roots : Forall (encodes 0) forest
}.

(** *** Pages *)

Definition with_page (args : Paginated.Args) (p : Z) : Paginated.Args :=
  {| Paginated.checklist_id := Paginated.checklist_id args;
     Paginated.page := p;
     Paginated.compact := Paginated.compact args;
     Paginated.max_depth := Paginated.max_depth args;
     Paginated.ultra_compact := Paginated.ultra_compact args |}.

(** The ids of the task lines a tool call returns; none if it throws. *)
Definition returned_ids (result : Outcome (list Line)) : list Z :=
  match result with
  | Returned out => task_ids out
  | Thrown _ => []
  end.

(** The ids page [p] shows. *)
Definition page_ids (args : Paginated.Args) (allTasks : list Task) (p : Z)
    : list Z :=
  returned_ids (Paginated.run (with_page args p) allTasks).

(** The page numbers [1..totalPages]. *)
Definition pages (args : Paginated.Args) (allTasks : list Task) : list Z :=
  seqZ 1 (Paginated.totalPages allTasks).

(** ** Sample checklists *)

Definition mkTask (i parent st : Z) (kids : option (list Z)) : Task :=
  {| id := i; parent_id := parent; content := "task " +:+ pretty i;
     status := st; tasks := kids; due := None; priority := None;
     tags_as_text := None; notes := None |}.

(** Two top-level tasks; task 1 has the open child 11 and the closed child
    12, which has the open child 121; task 2 is invalidated. *)
Definition t1 : Task := mkTask 1 0 0 (Some [11; 12]).
Definition t11 : Task := mkTask 11 1 0 None.
Definition t12 : Task := mkTask 12 1 1 (Some [121]).
Definition t121 : Task := mkTask 121 12 0 (Some []).
Definition t2 : Task := mkTask 2 0 2 None.

Definition sample : list Task := [t1; t11; t12; t121; t2].

Definition sample_forest : list Tree :=
  [Node t1 [Node t11 []; Node t12 [Node t121 []]]; Node t2 []].

(** A task tagged for the monitor. *)
Definition tagged : Task :=
  {| id := 5; parent_id := 0; content := "what is a rose tree?"; status := 0;
     tasks := None; due := None; priority := None;
     tags_as_text := Some " work, cc "; notes := None |}.

(** A record whose parent is not in the collection. *)
Definition orphan : list Task := [mkTask 11 1 0 None].

(** Two records that list each other as child. *)
Definition looped : list Task :=
  [mkTask 1 0 0 (Some [2]); mkTask 2 1 0 (Some [1])].

(** A chain [1 -> 2 -> ... -> n], one record per level. *)
Definition chain (n : nat) : list Task :=
  (fun k : nat =>
     mkTask (Z.of_nat k) (Z.of_nat k - 1)
       0 (if (k <? n)%nat then Some [Z.of_nat k + 1] else None))
  <$> seq 1 n.

Definition summary_args (depth : option Z) (closedToo compactToo : option bool)
    : Summary.Args :=
  {| Summary.checklist_id := 7; Summary.max_depth := depth;
     Summary.include_closed := closedToo; Summary.compact := compactToo;
     Summary.preview := None |}.

Definition tree_args (start : Z) (depth : option Z)
    (closedToo compactToo : option bool) : TaskTree.Args :=
  {| TaskTree.checklist_id := 7; TaskTree.task_id := start;
     TaskTree.include_closed := closedToo; TaskTree.max_depth := depth;
     TaskTree.compact := compactToo; TaskTree.with_notes := None |}.

Definition page_args (p : Z) (depth : option Z) (ultra : option bool)
    : Paginated.Args :=
  {| Paginated.checklist_id := 7; Paginated.page := p;
     Paginated.compact := None; Paginated.max_depth := depth;
     Paginated.ultra_compact := ultra |}.

(** * Properties *)

(** ** Chunks and traces *)

Lemma concat_mjoin {A} (ls : list (list A)) : concat ls = mjoin ls.
Proof. induction ls as [|l ls IH]; [done|]. cbn. by rewrite IH. Qed.

Lemma elem_of_concat {A} (x : A) (ls : list (list A)) :
  x ∈ concat ls <-> exists l, x ∈ l /\ l ∈ ls.
Proof. rewrite concat_mjoin. apply list_elem_of_join. Qed.

Lemma task_ids_app (out1 out2 : list Line) :
  task_ids (out1 ++ out2) = task_ids out1 ++ task_ids out2.
Proof. apply omap_app. Qed.

Lemma task_ids_concat (outs : list (list Line)) :
  task_ids (concat outs) = concat (task_ids <$> outs).
Proof.
  induction outs as [|out outs IH]; [done|].
  cbn [concat fmap list_fmap]. by rewrite task_ids_app, IH.
Qed.

Lemma task_ids_plain (texts : list string) : task_ids (Plain <$> texts) = [].
Proof. by induction texts. Qed.

Lemma task_ids_notes {A} (f : A -> string) (l : list A) :
  task_ids ((fun a => NoteLine (f a)) <$> l) = [].
Proof. by induction l. Qed.

Lemma markers_app (out1 out2 : list Line) :
  markers (out1 ++ out2) = markers out1 ++ markers out2.
Proof. apply filter_app. Qed.

(** [mapM] over a function that always returns. *)
Lemma mapM_total {A B} (f : A -> option B) (g : A -> B) (l : list A) :
  (forall a, a ∈ l -> f a = Some (g a)) -> mapM f l = Some (g <$> l).
Proof.
  intros Hf. apply mapM_Some, Forall2_fmap_r, Forall_Forall2_diag.
  by apply Forall_forall.
Qed.

(** ** The task map *)

Lemma taskMap_snoc (l : list Task) (task : Task) :
  taskMap (l ++ [task]) = <[id task := task]> (taskMap l).
Proof. unfold taskMap. by rewrite fold_left_app. Qed.

(** A record found under a key carries that key as its id and comes from
    the list. *)
Lemma taskMap_lookup_Some (l : list Task) (i : Z) (task : Task) :
  taskMap l !! i = Some task -> id task = i /\ task ∈ l.
Proof.
  induction l as [|last l IH] using rev_ind; [done|].
  rewrite taskMap_snoc, lookup_insert. case_decide as Hi.
  - intros [= <-]. split; [done|]. apply elem_of_app. right. by left.
  - intros [? ?]%IH. split; [done|]. apply elem_of_app. by left.
Qed.

Lemma taskMap_lookup_None (l : list Task) (i : Z) :
  i ∉ id <$> l -> taskMap l !! i = None.
Proof.
  intros Hi. destruct (taskMap l !! i) as [task|] eqn:E; [|done].
  destruct (taskMap_lookup_Some _ _ _ E) as [<- Hin].
  destruct Hi. by apply list_elem_of_fmap_2.
Qed.

(** Every id of the list is a key of the map. *)
Lemma taskMap_lookup_is_Some (l : list Task) (task : Task) :
  task ∈ l -> is_Some (taskMap l !! id task).
Proof.
  induction l as [|last l IH] using rev_ind; [by intros ?%elem_of_nil|].
  rewrite taskMap_snoc, lookup_insert. case_decide; [by eauto|].
  intros [?|Hlast%list_elem_of_singleton]%elem_of_app; [by auto|].
  by subst.
Qed.

(** With ids that are unique the map holds each record of the list. *)
Lemma taskMap_lookup_NoDup (l : list Task) (task : Task) :
  NoDup (id <$> l) -> task ∈ l -> taskMap l !! id task = Some task.
Proof.
  induction l as [|last l IH] using rev_ind; [by intros _ ?%elem_of_nil|].
  rewrite fmap_app, taskMap_snoc. intros [Hl [Hlast _]]%NoDup_app.
  rewrite lookup_insert. case_decide as Hi.
  - intros [Hin|Hin%list_elem_of_singleton]%elem_of_app; [|by subst].
    destruct (Hlast (id task)); [by apply list_elem_of_fmap_2|].
    rewrite <- Hi. by left.
  - intros [Hin|Hin%list_elem_of_singleton]%elem_of_app; [by auto|].
    by subst.
Qed.

(** ** The shared walk returns, and what it returns *)

Section WalkFacts.
Context (m : gmap Z Task) (maxDepth : Z).
Context (skip : Task -> bool).
Context (own elided : Task -> nat -> list Line).

Local Abbreviation run_fuel := (walk_fuel m maxDepth skip own elided).
Local Abbreviation run := (walk m maxDepth skip own elided).

(** One unit of fuel per remaining level is enough, whatever the map
    holds: the recursion is cut by the depth test, not by the data. *)
Lemma walk_fuel_enough (fuel : nat) (taskId : Z) (depth : nat) :
  (Z.to_nat (maxDepth - Z.of_nat depth) < fuel)%nat ->
  is_Some (run_fuel fuel taskId depth).
Proof.
  revert taskId depth.
  induction fuel as [|fuel IH]; intros taskId depth Hfuel; [lia|].
  cbn [walk_fuel].
  destruct (m !! taskId) as [task|]; [|by eauto].
  destruct (skip task); [by eauto|].
  destruct (Z.ltb_spec (Z.of_nat depth) maxDepth) as [Hlt|Hge];
    cbn [andb]; [|by destruct (has_subtasks task); eauto].
  destruct (has_subtasks task); [|by eauto].
  destruct (mapM_is_Some_2
              (fun subtaskId => run_fuel fuel subtaskId (S depth))
              (subtasks task)) as [subs ->]; [|by eauto].
  apply Forall_forall. intros c _. apply IH. lia.
Qed.

Lemma walk_fuel_mono (fuel fuel' : nat) (taskId : Z) (depth : nat) out :
  run_fuel fuel taskId depth = Some out -> (fuel <= fuel')%nat ->
  run_fuel fuel' taskId depth = Some out.
Proof.
  revert fuel' taskId depth out.
  induction fuel as [|fuel IH]; intros fuel' taskId depth out; [done|].
  destruct fuel' as [|fuel']; [lia|]. intros Hrun Hle.
  cbn [walk_fuel] in *.
  destruct (m !! taskId) as [task|]; [|done].
  destruct (skip task); [done|].
  destruct ((Z.of_nat depth <? maxDepth) && has_subtasks task); [|done].
  destruct (mapM _ (subtasks task)) as [subs|] eqn:Hsubs; [|done].
  erewrite (proj2 (mapM_Some _ _ subs)); [done|].
  apply mapM_Some in Hsubs.
  eapply Forall2_impl; [exact Hsubs|]. cbn. intros c r Hc.
  apply IH; [done|lia].
Qed.

Lemma walk_fuel_budget (taskId : Z) (depth : nat) :
  run_fuel (budget maxDepth depth) taskId depth = Some (run taskId depth).
Proof.
  unfold walk.
  destruct (walk_fuel_enough (budget maxDepth depth) taskId depth)
    as [out ->]; [unfold budget; lia|done].
Qed.

(** Whatever amount of fuel lets the walk return, it returns [walk]. *)
Lemma walk_fuel_Some (fuel : nat) (taskId : Z) (depth : nat) out :
  run_fuel fuel taskId depth = Some out -> out = run taskId depth.
Proof.
  intros Hrun. pose proof (walk_fuel_budget taskId depth) as Hb.
  destruct (Nat.le_ge_cases fuel (budget maxDepth depth)) as [Hle|Hle].
  - apply (walk_fuel_mono _ _ _ _ _ Hrun) in Hle. congruence.
  - apply (walk_fuel_mono _ _ _ _ _ Hb) in Hle. congruence.
Qed.

(** The body of the closure, read as an equation of the total function. *)
Lemma walk_unfold (taskId : Z) (depth : nat) :
  run taskId depth =
    match m !! taskId with
    | None => []
    | Some task =>
      if skip task then []
      else if (Z.of_nat depth <? maxDepth) && has_subtasks task then
        own task depth ++
        concat ((fun subtaskId => run subtaskId (S depth)) <$> subtasks task)
      else if has_subtasks task then own task depth ++ elided task depth
      else own task depth
    end.
Proof.
  unfold walk at 1. unfold budget. cbn [walk_fuel].
  destruct (m !! taskId) as [task|]; [|done].
  destruct (skip task); [done|].
  destruct (Z.ltb_spec (Z.of_nat depth) maxDepth) as [Hlt|Hge];
    cbn [andb]; [|by destruct (has_subtasks task)].
  destruct (has_subtasks task); [|done].
  rewrite (mapM_total _ (fun subtaskId => run subtaskId (S depth))); [done|].
  intros c _. rewrite <- walk_fuel_budget. f_equal. unfold budget. lia.
Qed.

Lemma walk_absent (taskId : Z) (depth : nat) :
  m !! taskId = None -> run taskId depth = [].
Proof. intros H. by rewrite walk_unfold, H. Qed.

Lemma walk_skipped (taskId : Z) (depth : nat) (task : Task) :
  m !! taskId = Some task -> skip task = true -> run taskId depth = [].
Proof. intros H Hs. by rewrite walk_unfold, H, Hs. Qed.

Lemma walk_leaf (taskId : Z) (depth : nat) (task : Task) :
  m !! taskId = Some task -> skip task = false ->
  has_subtasks task = false -> run taskId depth = own task depth.
Proof.
  intros H Hs Hl. rewrite walk_unfold, H, Hs, Hl.
  by rewrite andb_false_r.
Qed.

Lemma walk_expand (taskId : Z) (depth : nat) (task : Task) :
  m !! taskId = Some task -> skip task = false ->
  Z.of_nat depth < maxDepth ->
  run taskId depth =
    own task depth ++
    concat ((fun subtaskId => run subtaskId (S depth)) <$> subtasks task).
Proof.
  intros H Hs Hd. rewrite walk_unfold, H, Hs.
  destruct (Z.ltb_spec (Z.of_nat depth) maxDepth); [|lia]. cbn [andb].
  unfold has_subtasks, subtasks.
  destruct (tasks task) as [[|c cs]|]; cbn; by rewrite ?app_nil_r.
Qed.

Lemma walk_elide (taskId : Z) (depth : nat) (task : Task) :
  m !! taskId = Some task -> skip task = false ->
  maxDepth <= Z.of_nat depth -> has_subtasks task = true ->
  run taskId depth = own task depth ++ elided task depth.
Proof.
  intros H Hs Hd Hk. rewrite walk_unfold, H, Hs, Hk.
  by destruct (Z.ltb_spec (Z.of_nat depth) maxDepth); [lia|].
Qed.
End WalkFacts.

(** ** Which ids the walk shows *)

Section WalkTrace.
Context (m : gmap Z Task) (maxDepth : Z).
Context (skip : Task -> bool).
Context (own elided : Task -> nat -> list Line).

(** The own chunks of a task hold its one task line; what stands for
    elided children holds none. *)
Hypothesis own_ids : forall task depth, task_ids (own task depth) = [id task].
Hypothesis elided_ids : forall task depth, task_ids (elided task depth) = [].

Local Abbreviation run := (walk m maxDepth skip own elided).

Lemma walk_ids_unfold (taskId : Z) (depth : nat) :
  task_ids (run taskId depth) =
    match m !! taskId with
    | None => []
    | Some task =>
      if skip task then []
      else if Z.of_nat depth <? maxDepth then
        id task ::
        concat ((fun subtaskId => task_ids (run subtaskId (S depth)))
                <$> subtasks task)
      else [id task]
    end.
Proof.
  rewrite walk_unfold. destruct (m !! taskId) as [task|]; [|done].
  destruct (skip task); [done|].
  destruct (Z.of_nat depth <? maxDepth); cbn [andb].
  - unfold has_subtasks, subtasks.
    destruct (tasks task) as [[|c cs]|]; cbn [default fmap list_fmap concat];
      rewrite ?task_ids_app, ?task_ids_concat, ?own_ids, <- ?list_fmap_compose;
      done.
  - destruct (has_subtasks task);
      by rewrite ?task_ids_app, ?own_ids, ?elided_ids.
Qed.

(** A task line is shown exactly for the ids linked to the start. *)
Lemma walk_ids_linked (taskId : Z) (depth : nat) (x : Z) :
  x ∈ task_ids (run taskId depth) <-> linked m maxDepth skip taskId depth x.
Proof.
  split.
  - remember (Z.to_nat (maxDepth - Z.of_nat depth)) as n eqn:Hn.
    revert taskId depth Hn.
    induction n as [n IH] using lt_wf_ind. intros taskId depth Hn.
    rewrite walk_ids_unfold.
    destruct (m !! taskId) as [task|] eqn:Hm; [|by intros ?%elem_of_nil].
    destruct (skip task) eqn:Hs; [by intros ?%elem_of_nil|].
    destruct (Z.ltb_spec (Z.of_nat depth) maxDepth) as [Hlt|Hge].
    + intros [->|Hin]%elem_of_cons; [by eapply linked_here|].
      apply elem_of_concat in Hin as (ids & Hx & Hids).
      apply list_elem_of_fmap in Hids as (c & -> & Hc).
      eapply linked_below; [done..|].
      eapply (IH (Z.to_nat (maxDepth - Z.of_nat (S depth)))); [lia|done|done].
    + intros ->%list_elem_of_singleton. by eapply linked_here.
  - induction 1 as [r d task Hm Hs|r d task c x Hm Hs Hd Hc _ IH];
      rewrite walk_ids_unfold, Hm, Hs.
    + destruct (Z.of_nat d <? maxDepth); by left.
    + destruct (Z.ltb_spec (Z.of_nat d) maxDepth); [|lia].
      right. apply elem_of_concat. eexists. split; [exact IH|].
      by apply (list_elem_of_fmap_2
                  (fun subtaskId => task_ids (run subtaskId (S d)))).
Qed.
End WalkTrace.

(** Two walks over the same map and bound, with filters that agree, show
    the same ids, whatever text they put on the lines. *)
Lemma walk_ids_mode (m : gmap Z Task) (maxDepth : Z) (skip1 skip2 : Task -> bool)
    (own1 elided1 own2 elided2 : Task -> nat -> list Line) :
  (forall task, skip1 task = skip2 task) ->
  (forall task depth, task_ids (own1 task depth) = [id task]) ->
  (forall task depth, task_ids (elided1 task depth) = []) ->
  (forall task depth, task_ids (own2 task depth) = [id task]) ->
  (forall task depth, task_ids (elided2 task depth) = []) ->
  forall taskId depth,
    task_ids (walk m maxDepth skip1 own1 elided1 taskId depth) =
    task_ids (walk m maxDepth skip2 own2 elided2 taskId depth).
Proof.
  intros Hskip Ho1 He1 Ho2 He2 taskId depth.
  remember (Z.to_nat (maxDepth - Z.of_nat depth)) as n eqn:Hn.
  revert taskId depth Hn.
  induction n as [n IH] using lt_wf_ind. intros taskId depth Hn.
  rewrite !walk_ids_unfold by done.
  destruct (m !! taskId) as [task|]; [|done].
  rewrite Hskip. destruct (skip2 task); [done|].
  destruct (Z.ltb_spec (Z.of_nat depth) maxDepth) as [Hlt|Hge]; [|done].
  do 2 f_equal. apply list_fmap_ext. intros _ c _.
  eapply (IH (Z.to_nat (maxDepth - Z.of_nat (S depth)))); [lia|done].
Qed.

(** ** The three closures are instances of the walk *)

(** Settles the branch a closure takes once the depth test and the child
    test are decided. *)
Ltac walk_branches :=
  repeat match goal with
  | |- context [Z.ltb ?a ?b] => destruct (Z.ltb_spec a b)
  | |- context [Z.leb ?a ?b] => destruct (Z.leb_spec a b)
  | |- context [has_subtasks ?t] => destruct (has_subtasks t)
  end; cbn [andb]; rewrite ?app_nil_r; try done; try lia.

Lemma summary_formatTask_fuel_walk (args : Summary.Args) (allTasks : list Task)
    (fuel : nat) (taskId : Z) (depth : nat) :
  Summary.formatTask_fuel args allTasks fuel taskId depth =
  walk_fuel (taskMap allTasks) (Summary.maxDepth args) (Summary.skip args)
    (Summary.own args) (Summary.elided args) fuel taskId depth.
Proof.
  revert taskId depth. induction fuel as [|fuel IH]; intros taskId depth; [done|].
  cbn [Summary.formatTask_fuel walk_fuel].
  destruct (taskMap allTasks !! taskId) as [task|]; [|done].
  rewrite !(mapM_ext _ _ _ (fun c => IH c (S depth))).
  generalize (mapM (fun c => walk_fuel (taskMap allTasks) (Summary.maxDepth args)
                              (Summary.skip args) (Summary.own args) (Summary.elided args)
                              fuel c (S depth)) (subtasks task)).
  intros subs. unfold Summary.skip, Summary.own, Summary.elided.
  destruct (negb (Summary.includeClosed args) && (status task =? 1)); [done|].
  destruct (Summary.compactMode args); walk_branches.
Qed.

Lemma summary_formatTask_walk (args : Summary.Args) (allTasks : list Task)
    (taskId : Z) (depth : nat) :
  Summary.formatTask args allTasks taskId depth =
  walk (taskMap allTasks) (Summary.maxDepth args) (Summary.skip args)
    (Summary.own args) (Summary.elided args) taskId depth.
Proof.
  unfold Summary.formatTask, walk. by rewrite summary_formatTask_fuel_walk.
Qed.

Lemma tree_formatTask_fuel_walk (args : TaskTree.Args) (allTasks : list Task)
    (fuel : nat) (taskId : Z) (depth : nat) :
  TaskTree.formatTask_fuel args allTasks fuel taskId depth =
  walk_fuel (taskMap allTasks) (TaskTree.maxDepth args) (TaskTree.skip args)
    (TaskTree.own args) (TaskTree.elided args) fuel taskId depth.
Proof.
  revert taskId depth. induction fuel as [|fuel IH]; intros taskId depth; [done|].
  cbn [TaskTree.formatTask_fuel walk_fuel].
  destruct (taskMap allTasks !! taskId) as [task|]; [|done].
  rewrite !(mapM_ext _ _ _ (fun c => IH c (S depth))).
  generalize (mapM (fun c => walk_fuel (taskMap allTasks) (TaskTree.maxDepth args)
                              (TaskTree.skip args) (TaskTree.own args) (TaskTree.elided args)
                              fuel c (S depth)) (subtasks task)).
  intros subs. unfold TaskTree.skip, TaskTree.own, TaskTree.elided.
  destruct (negb (TaskTree.includeClosed args) && (status task =? 1)); [done|].
  destruct (TaskTree.compactMode args); walk_branches.
Qed.

Lemma tree_formatTask_walk (args : TaskTree.Args) (allTasks : list Task)
    (taskId : Z) (depth : nat) :
  TaskTree.formatTask args allTasks taskId depth =
  walk (taskMap allTasks) (TaskTree.maxDepth args) (TaskTree.skip args)
    (TaskTree.own args) (TaskTree.elided args) taskId depth.
Proof.
  unfold TaskTree.formatTask, walk. by rewrite tree_formatTask_fuel_walk.
Qed.

Lemma paginated_formatTask_fuel_walk (args : Paginated.Args)
    (allTasks : list Task) (fuel : nat) (taskId : Z) (depth : nat) :
  Paginated.formatTask_fuel args allTasks fuel taskId depth =
  walk_fuel (taskMap allTasks) (Paginated.maxDepth args) Paginated.skip
    (Paginated.own args) (Paginated.elided args) fuel taskId depth.
Proof.
  revert taskId depth. induction fuel as [|fuel IH]; intros taskId depth; [done|].
  cbn [Paginated.formatTask_fuel walk_fuel].
  destruct (taskMap allTasks !! taskId) as [task|]; [|done].
  rewrite !(mapM_ext _ _ _ (fun c => IH c (S depth))).
  generalize (mapM (fun c => walk_fuel (taskMap allTasks) (Paginated.maxDepth args)
                              Paginated.skip (Paginated.own args)
                              (Paginated.elided args) fuel c (S depth))
                   (subtasks task)).
  intros subs. unfold Paginated.skip, Paginated.own, Paginated.elided.
  destruct (Paginated.ultraCompact args); [|destruct (Paginated.compactMode args)];
    walk_branches.
Qed.

Lemma paginated_formatTask_walk (args : Paginated.Args) (allTasks : list Task)
    (taskId : Z) (depth : nat) :
  Paginated.formatTask args allTasks taskId depth =
  walk (taskMap allTasks) (Paginated.maxDepth args) Paginated.skip
    (Paginated.own args) (Paginated.elided args) taskId depth.
Proof.
  unfold Paginated.formatTask, walk. by rewrite paginated_formatTask_fuel_walk.
Qed.

(** The own chunks of each view hold the one task line of the task, and
    the elision chunks hold none. *)
Lemma summary_own_ids (args : Summary.Args) (task : Task) (depth : nat) :
  task_ids (Summary.own args task depth) = [id task].
Proof.
  unfold Summary.own, Summary.noteLines.
  destruct (Summary.compactMode args); [done|].
  rewrite task_ids_app. destruct (has_notes task); [|done].
  by rewrite task_ids_notes.
Qed.

Lemma summary_elided_ids (args : Summary.Args) (task : Task) (depth : nat) :
  task_ids (Summary.elided args task depth) = [].
Proof. unfold Summary.elided. by destruct (Summary.compactMode args). Qed.

Lemma tree_own_ids (args : TaskTree.Args) (task : Task) (depth : nat) :
  task_ids (TaskTree.own args task depth) = [id task].
Proof.
  unfold TaskTree.own, TaskTree.noteLines.
  destruct (TaskTree.compactMode args); [done|].
  rewrite task_ids_app.
  destruct (TaskTree.withNotes args && has_notes task); [|done].
  rewrite task_ids_app, task_ids_notes.
  by destruct (2 <? length (notes_of task))%nat.
Qed.

Lemma tree_elided_ids (args : TaskTree.Args) (task : Task) (depth : nat) :
  task_ids (TaskTree.elided args task depth) = [].
Proof. unfold TaskTree.elided. by destruct (TaskTree.compactMode args). Qed.

Lemma paginated_own_ids (args : Paginated.Args) (task : Task) (depth : nat) :
  task_ids (Paginated.own args task depth) = [id task].
Proof.
  unfold Paginated.own.
  by destruct (Paginated.ultraCompact args), (Paginated.compactMode args).
Qed.

Lemma paginated_elided_ids (args : Paginated.Args) (task : Task) (depth : nat) :
  task_ids (Paginated.elided args task depth) = [].
Proof. unfold Paginated.elided. by destruct (Paginated.ultraCompact args). Qed.

(** ** Pages *)

Lemma paginated_totalPages_length (allTasks : list Task) :
  Paginated.totalPages allTasks = Z.of_nat (length (topLevel allTasks)).
Proof.
  unfold Paginated.totalPages, Paginated.ceil_div, Paginated.pageSize,
    Paginated.topLevelTasks.
  f_equal. rewrite Nat.div_1_r. lia.
Qed.

Lemma paginated_run_outside (args : Paginated.Args) (allTasks : list Task) :
  Paginated.page args < 1 \/ Paginated.totalPages allTasks < Paginated.page args ->
  Paginated.run args allTasks =
    Thrown ("Invalid page " +:+ pretty (Paginated.page args) +:+
            ". Valid pages: 1-" +:+ pretty (Paginated.totalPages allTasks)).
Proof.
  intros Hout. unfold Paginated.run, Paginated.pageNum.
  destruct (Z.ltb_spec (Paginated.page args) 1);
    destruct (Z.ltb_spec (Paginated.totalPages allTasks) (Paginated.page args));
    cbn [orb]; first [done|lia].
Qed.

Lemma paginated_run_inside (args : Paginated.Args) (allTasks : list Task) :
  1 <= Paginated.page args <= Paginated.totalPages allTasks ->
  Paginated.run args allTasks =
    Returned (Paginated.header args allTasks ++ Paginated.body args allTasks ++
              Paginated.footer args allTasks).
Proof.
  intros Hin. unfold Paginated.run, Paginated.pageNum.
  destruct (Z.ltb_spec (Paginated.page args) 1);
    destruct (Z.ltb_spec (Paginated.totalPages allTasks) (Paginated.page args));
    cbn [orb]; first [done|lia].
Qed.

(** C3.  The paginated view throws its invalid-page error exactly when the
    requested page lies outside [1, totalPages], where [totalPages] is
    [ceil(topLevelCount / pageSize)]; inside the range it returns the page.
    No page number is clamped: page [0] and page [totalPages + 1] both
    throw. *)
Theorem paginated_invalid_page (args : Paginated.Args) (allTasks : list Task) :
  Paginated.totalPages allTasks =
    Z.of_nat (Paginated.ceil_div (length (topLevel allTasks)) Paginated.pageSize)
  /\ ((Paginated.page args < 1 \/
       Paginated.totalPages allTasks < Paginated.page args) <->
      Paginated.run args allTasks =
        Thrown ("Invalid page " +:+ pretty (Paginated.page args) +:+
                ". Valid pages: 1-" +:+ pretty (Paginated.totalPages allTasks)))
  /\ (1 <= Paginated.page args <= Paginated.totalPages allTasks <->
      exists out, Paginated.run args allTasks = Returned out)
  /\ (exists message, Paginated.run (with_page args 0) allTasks = Thrown message)
  /\ (exists message,
        Paginated.run (with_page args (Paginated.totalPages allTasks + 1))
          allTasks = Thrown message).
Proof.
  split; [done|].
  assert (Hcases : Paginated.page args < 1 \/
                   Paginated.totalPages allTasks < Paginated.page args \/
                   1 <= Paginated.page args <= Paginated.totalPages allTasks)
    by lia.
  split; [|split; [|split]].
  - split; [apply paginated_run_outside|].
    intros Hrun. destruct Hcases as [?|[?|Hin]]; [by auto..|].
    by rewrite (paginated_run_inside _ _ Hin) in Hrun.
  - split; [by eauto using paginated_run_inside|].
    intros [out Hrun]. destruct Hcases as [Hout|[Hout|?]]; [| |done].
    + by rewrite (paginated_run_outside _ _ (or_introl Hout)) in Hrun.
    + by rewrite (paginated_run_outside _ _ (or_intror Hout)) in Hrun.
  - eexists. apply paginated_run_outside. left. cbn. lia.
  - eexists. apply paginated_run_outside. right. cbn. lia.
Qed.

(** ** Totality of the renderers *)

Lemma render_nil : render [] = "".
Proof. done. Qed.

Lemma has_subtasks_absent_or_empty (task : Task) :
  tasks task = None \/ tasks task = Some [] -> has_subtasks task = false.
Proof. unfold has_subtasks. by intros [-> | ->]. Qed.

(** C10.  Each of the three [formatTask] closures returns on every task
    collection, every start id and every depth: the fuel [budget], one unit
    per level left below [maxDepth], is enough whatever the child lists
    hold.  An id with no record gives the empty string.  A record whose
    child list is missing or empty is a leaf: unless it is filtered out, it
    gives its own chunks and nothing else.  The closures have no throwing
    branch. *)
Theorem formatTask_total (sargs : Summary.Args) (targs : TaskTree.Args)
    (pargs : Paginated.Args) (allTasks : list Task) (taskId : Z) (depth : nat) :
  (forall fuel, (budget (Summary.maxDepth sargs) depth <= fuel)%nat ->
     Summary.formatTask_fuel sargs allTasks fuel taskId depth =
       Some (Summary.formatTask sargs allTasks taskId depth))
  /\ (forall fuel, (budget (TaskTree.maxDepth targs) depth <= fuel)%nat ->
     TaskTree.formatTask_fuel targs allTasks fuel taskId depth =
       Some (TaskTree.formatTask targs allTasks taskId depth))
  /\ (forall fuel, (budget (Paginated.maxDepth pargs) depth <= fuel)%nat ->
     Paginated.formatTask_fuel pargs allTasks fuel taskId depth =
       Some (Paginated.formatTask pargs allTasks taskId depth))
  /\ (taskMap allTasks !! taskId = None ->
      render (Summary.formatTask sargs allTasks taskId depth) = "" /\
      render (TaskTree.formatTask targs allTasks taskId depth) = "" /\
      render (Paginated.formatTask pargs allTasks taskId depth) = "")
  /\ (forall task,
        taskMap allTasks !! taskId = Some task ->
        tasks task = None \/ tasks task = Some [] ->
        Summary.formatTask sargs allTasks taskId depth =
          (if Summary.skip sargs task then []
           else Summary.own sargs task depth) /\
        TaskTree.formatTask targs allTasks taskId depth =
          (if TaskTree.skip targs task then []
           else TaskTree.own targs task depth) /\
        Paginated.formatTask pargs allTasks taskId depth =
          Paginated.own pargs task depth).
Proof.
  repeat split.
  - intros fuel Hfuel. rewrite summary_formatTask_fuel_walk, summary_formatTask_walk.
    eapply walk_fuel_mono; [apply walk_fuel_budget|done].
  - intros fuel Hfuel. rewrite tree_formatTask_fuel_walk, tree_formatTask_walk.
    eapply walk_fuel_mono; [apply walk_fuel_budget|done].
  - intros fuel Hfuel.
    rewrite paginated_formatTask_fuel_walk, paginated_formatTask_walk.
    eapply walk_fuel_mono; [apply walk_fuel_budget|done].
  - by rewrite summary_formatTask_walk, walk_absent.
  - by rewrite tree_formatTask_walk, walk_absent.
  - by rewrite paginated_formatTask_walk, walk_absent.
  - rewrite summary_formatTask_walk.
    destruct (Summary.skip sargs task) eqn:Hs.
    + by eapply walk_skipped.
    + by eapply walk_leaf, has_subtasks_absent_or_empty.
  - rewrite tree_formatTask_walk.
    destruct (TaskTree.skip targs task) eqn:Hs.
    + by eapply walk_skipped.
    + by eapply walk_leaf, has_subtasks_absent_or_empty.
  - rewrite paginated_formatTask_walk.
    by eapply walk_leaf, has_subtasks_absent_or_empty.
Qed.

(** ** Subtree expansion *)

(** C7, as the code has it.  At every visited node (present and not
    filtered out) at depth [d], in every view and mode: when
    [d < maxDepth] the output is the node's own chunks followed by the
    outputs of its children at depth [d + 1], in the listed order.  When
    [d >= maxDepth] and the node has children, what follows the own chunks
    depends on the view: the task-tree view appends one marker with the
    number of children and the value [maxDepth + 1]; the summary in full
    mode and the paginated view in compact and full mode append one marker
    with the number of children only; the summary in compact mode and the
    paginated view in ultra-compact mode append nothing. *)
Theorem subtree_expansion_by_view (sargs : Summary.Args) (targs : TaskTree.Args)
    (pargs : Paginated.Args) (allTasks : list Task) (taskId : Z) (depth : nat)
    (task : Task) :
  taskMap allTasks !! taskId = Some task ->
  (Summary.skip sargs task = false ->
     (Z.of_nat depth < Summary.maxDepth sargs ->
        Summary.formatTask sargs allTasks taskId depth =
          Summary.own sargs task depth ++
          concat ((fun subtaskId =>
                     Summary.formatTask sargs allTasks subtaskId (S depth))
                  <$> subtasks task)) /\
     (Summary.maxDepth sargs <= Z.of_nat depth -> has_subtasks task = true ->
        Summary.formatTask sargs allTasks taskId depth =
          Summary.own sargs task depth ++
          (if Summary.compactMode sargs then []
           else [Marker (length (subtasks task))
                   (repeat_str "  " depth +:+ "  ... (" +:+
                    pretty (length (subtasks task)) +:+
                    " more subtasks, increase max_depth to see)" +:+ NL)])))
  /\ (TaskTree.skip targs task = false ->
     (Z.of_nat depth < TaskTree.maxDepth targs ->
        TaskTree.formatTask targs allTasks taskId depth =
          TaskTree.own targs task depth ++
          concat ((fun subtaskId =>
                     TaskTree.formatTask targs allTasks subtaskId (S depth))
                  <$> subtasks task)) /\
     (TaskTree.maxDepth targs <= Z.of_nat depth -> has_subtasks task = true ->
        TaskTree.formatTask targs allTasks taskId depth =
          TaskTree.own targs task depth ++
          [Marker (length (subtasks task))
             (repeat_str "  " depth +:+ "  ... (" +:+
              pretty (length (subtasks task)) +:+
              (if TaskTree.compactMode targs then " more, use max_depth="
               else " more subtasks, use max_depth=") +:+
              pretty (TaskTree.maxDepth targs + 1) +:+ ")" +:+ NL)]))
  /\ ((Z.of_nat depth < Paginated.maxDepth pargs ->
        Paginated.formatTask pargs allTasks taskId depth =
          Paginated.own pargs task depth ++
          concat ((fun subtaskId =>
                     Paginated.formatTask pargs allTasks subtaskId (S depth))
                  <$> subtasks task)) /\
      (Paginated.maxDepth pargs <= Z.of_nat depth -> has_subtasks task = true ->
        Paginated.formatTask pargs allTasks taskId depth =
          Paginated.own pargs task depth ++
          (if Paginated.ultraCompact pargs then []
           else [Marker (length (subtasks task))
                   (repeat_str "  " depth +:+ "  ... (" +:+
                    pretty (length (subtasks task)) +:+ " more)" +:+ NL)]))).
Proof.
  intros Hm. split; [|split].
  - intros Hs. split.
    + intros Hd. rewrite summary_formatTask_walk, (walk_expand _ _ _ _ _ _ _ _ Hm Hs Hd).
      f_equal. f_equal. apply list_fmap_ext. intros _ c _.
      by rewrite summary_formatTask_walk.
    + intros Hd Hk.
      by rewrite summary_formatTask_walk, (walk_elide _ _ _ _ _ _ _ _ Hm Hs Hd Hk).
  - intros Hs. split.
    + intros Hd. rewrite tree_formatTask_walk, (walk_expand _ _ _ _ _ _ _ _ Hm Hs Hd).
      f_equal. f_equal. apply list_fmap_ext. intros _ c _.
      by rewrite tree_formatTask_walk.
    + intros Hd Hk.
      rewrite tree_formatTask_walk, (walk_elide _ _ _ _ _ _ _ _ Hm Hs Hd Hk).
      unfold TaskTree.elided. by destruct (TaskTree.compactMode targs).
  - split.
    + intros Hd.
      rewrite paginated_formatTask_walk,
        (walk_expand _ _ _ _ _ _ _ _ Hm (eq_refl : Paginated.skip task = false) Hd).
      f_equal. f_equal. apply list_fmap_ext. intros _ c _.
      by rewrite paginated_formatTask_walk.
    + intros Hd Hk.
      by rewrite paginated_formatTask_walk,
        (walk_elide _ _ _ _ _ _ _ _ Hm (eq_refl : Paginated.skip task = false) Hd Hk).
Qed.

(** ** Which tasks a view shows *)

Lemma linked_ext (m : gmap Z Task) (maxDepth : Z) (skip1 skip2 : Task -> bool)
    (rootId : Z) (depth : nat) (x : Z) :
  (forall task, skip1 task = skip2 task) ->
  linked m maxDepth skip1 rootId depth x -> linked m maxDepth skip2 rootId depth x.
Proof.
  intros Hskip. induction 1 as [r d task Hm Hs|r d task c x Hm Hs Hd Hc _ IH].
  - eapply linked_here; [done|]. by rewrite <- Hskip.
  - eapply linked_below; [done| |done..]. by rewrite <- Hskip.
Qed.

Lemma summary_skip_closed (args : Summary.Args) (task : Task) :
  Summary.include_closed args <> Some true ->
  Summary.skip args task = closed task.
Proof.
  intros H. unfold Summary.skip, Summary.includeClosed, closed.
  by rewrite bool_decide_eq_false_2.
Qed.

Lemma summary_skip_none (args : Summary.Args) (task : Task) :
  Summary.include_closed args = Some true -> Summary.skip args task = false.
Proof.
  intros H. unfold Summary.skip, Summary.includeClosed.
  by rewrite bool_decide_eq_true_2.
Qed.

Lemma tree_skip_closed (args : TaskTree.Args) (task : Task) :
  TaskTree.include_closed args <> Some true ->
  TaskTree.skip args task = closed task.
Proof.
  intros H. unfold TaskTree.skip, TaskTree.includeClosed, closed.
  by rewrite bool_decide_eq_false_2.
Qed.

(** The task lines of a view are those of its body. *)
Lemma summary_run_ids (args : Summary.Args) (allTasks : list Task) :
  task_ids (Summary.run args allTasks) =
  concat ((fun task => task_ids (Summary.formatTask args allTasks (id task) 0))
          <$> topLevel allTasks).
Proof.
  unfold Summary.run, Summary.header, Summary.footer, Summary.body.
  rewrite !task_ids_app, task_ids_concat, <- list_fmap_compose.
  destruct (Summary.isPreview args), (Summary.compactMode args);
    cbn; by rewrite app_nil_r.
Qed.

Lemma tree_run_ids (args : TaskTree.Args) (allTasks : list Task) out :
  TaskTree.run args allTasks = Returned out ->
  task_ids out =
  task_ids (TaskTree.formatTask args allTasks (TaskTree.task_id args) 0).
Proof.
  unfold TaskTree.run.
  destruct (taskMap allTasks !! TaskTree.task_id args); [|done].
  by intros [= <-].
Qed.

Lemma paginated_header_ids (args : Paginated.Args) (allTasks : list Task) :
  task_ids (Paginated.header args allTasks) = [].
Proof. unfold Paginated.header. by repeat case_match. Qed.

Lemma paginated_footer_ids (args : Paginated.Args) (allTasks : list Task) :
  task_ids (Paginated.footer args allTasks) = [].
Proof. unfold Paginated.footer. by repeat case_match. Qed.

Lemma paginated_body_ids (args : Paginated.Args) (allTasks : list Task) :
  task_ids (Paginated.header args allTasks ++ Paginated.body args allTasks ++
            Paginated.footer args allTasks) =
  concat ((fun task => task_ids (Paginated.formatTask args allTasks (id task) 0))
          <$> Paginated.pageTasks args allTasks).
Proof.
  rewrite !task_ids_app, paginated_header_ids, paginated_footer_ids, app_nil_r.
  unfold Paginated.body. rewrite task_ids_concat, <- list_fmap_compose.
  cbn [app]. f_equal. apply list_fmap_ext. intros _ task _. cbn.
  by rewrite task_ids_app, app_nil_r.
Qed.

Lemma paginated_run_ids (args : Paginated.Args) (allTasks : list Task) out :
  Paginated.run args allTasks = Returned out ->
  task_ids out =
  concat ((fun task => task_ids (Paginated.formatTask args allTasks (id task) 0))
          <$> Paginated.pageTasks args allTasks).
Proof.
  unfold Paginated.run. destruct (_ || _); [done|].
  intros [= <-]. apply paginated_body_ids.
Qed.

(** The last step of a chain of child references. *)
Lemma tc_child_last (m : gmap Z Task) (a c : Z) :
  tc (child_of m) a c -> exists b, rtc (child_of m) a b /\ child_of m b c.
Proof.
  revert c. apply tc_ind_r.
  - intros c Hstep. by exists a.
  - intros b c Hab Hstep _. exists b. split; [by apply tc_rtc|done].
Qed.

(** Where every id is listed as a child by at most one record, whatever
    lies above a shown task lies on the chain that links it to the start of
    the walk, or above that start. *)
Lemma linked_ancestor (m : gmap Z Task) (maxDepth : Z) (skip : Task -> bool)
    (rootId : Z) (depth : nat) (x a : Z) :
  (forall k task, m !! k = Some task -> id task = k) ->
  (forall p1 p2 c, child_of m p1 c -> child_of m p2 c -> p1 = p2) ->
  linked m maxDepth skip rootId depth x ->
  tc (child_of m) a x ->
  (exists task, m !! a = Some task /\ skip task = false) \/
  tc (child_of m) a rootId.
Proof.
  intros Hkeys Huniq Hlinked. revert a.
  induction Hlinked as [r d task Hm Hs|r d task c x Hm Hs Hd Hc _ IH];
    intros a Ha.
  - right. by rewrite <- (Hkeys _ _ Hm).
  - destruct (IH a Ha) as [?|Hac]; [by left|].
    destruct (tc_child_last _ _ _ Hac) as (b & Hab & Hbc).
    assert (b = r) as -> by (eapply Huniq; [done|by exists task]).
    apply rtc_tc in Hab as [->|?]; [left; by exists task|by right].
Qed.

(** C1, as the code has it.  In the summary and the task-tree view called
    without [include_closed = true], a closed task gives the empty output at
    whatever depth it is visited, so nothing is entered through it; the
    tasks shown are exactly those joined to the start of the walk by a chain
    of child references that stays within the depth bound (every step of
    it is taken from a depth below [maxDepth], the start being at depth 0)
    and on which no task is closed, the start and the task shown
    included.  Where every id is listed as a child by at most one
    record, the summary shows nothing below a closed task, provided no
    top-level task is listed as a child; and the task-tree view shows
    something below a closed task only when that closed task lies above the
    requested start. *)
Theorem closed_tasks_prune_their_subtree (sargs : Summary.Args)
    (targs : TaskTree.Args) (allTasks : list Task) :
  Summary.include_closed sargs <> Some true ->
  TaskTree.include_closed targs <> Some true ->
  (forall taskId depth task,
     taskMap allTasks !! taskId = Some task -> status task = 1 ->
     Summary.formatTask sargs allTasks taskId depth = [] /\
     TaskTree.formatTask targs allTasks taskId depth = [])
  /\ (forall rootId depth x,
        x ∈ task_ids (Summary.formatTask sargs allTasks rootId depth) <->
        linked (taskMap allTasks) (Summary.maxDepth sargs) closed rootId depth x)
  /\ (forall rootId depth x,
        x ∈ task_ids (TaskTree.formatTask targs allTasks rootId depth) <->
        linked (taskMap allTasks) (TaskTree.maxDepth targs) closed rootId depth x)
  /\ (forall x,
        x ∈ task_ids (Summary.run sargs allTasks) <->
        exists top, top ∈ topLevel allTasks /\
          linked (taskMap allTasks) (Summary.maxDepth sargs) closed (id top) 0 x)
  /\ (forall out x,
        TaskTree.run targs allTasks = Returned out ->
        (x ∈ task_ids out <->
         linked (taskMap allTasks) (TaskTree.maxDepth targs) closed
           (TaskTree.task_id targs) 0 x))
  /\ ((forall p1 p2 c,
         child_of (taskMap allTasks) p1 c -> child_of (taskMap allTasks) p2 c ->
         p1 = p2) ->
      (forall a task x,
         (forall p top, top ∈ topLevel allTasks ->
            ~ child_of (taskMap allTasks) p (id top)) ->
         taskMap allTasks !! a = Some task -> status task = 1 ->
         tc (child_of (taskMap allTasks)) a x ->
         x ∉ task_ids (Summary.run sargs allTasks)) /\
      (forall out a task x,
         TaskTree.run targs allTasks = Returned out ->
         taskMap allTasks !! a = Some task -> status task = 1 ->
         tc (child_of (taskMap allTasks)) a x ->
         x ∈ task_ids out ->
         tc (child_of (taskMap allTasks)) a (TaskTree.task_id targs))).
Proof.
  intros Hs Ht.
  assert (Hsum : forall rootId depth x,
            x ∈ task_ids (Summary.formatTask sargs allTasks rootId depth) <->
            linked (taskMap allTasks) (Summary.maxDepth sargs) closed rootId depth x).
  { intros rootId depth x. rewrite summary_formatTask_walk.
    rewrite walk_ids_linked
      by auto using summary_own_ids, summary_elided_ids.
    split; apply linked_ext; intros task; by rewrite summary_skip_closed. }
  assert (Htree : forall rootId depth x,
            x ∈ task_ids (TaskTree.formatTask targs allTasks rootId depth) <->
            linked (taskMap allTasks) (TaskTree.maxDepth targs) closed rootId depth x).
  { intros rootId depth x. rewrite tree_formatTask_walk.
    rewrite walk_ids_linked by auto using tree_own_ids, tree_elided_ids.
    split; apply linked_ext; intros task; by rewrite tree_skip_closed. }
  assert (Hkeys : forall k task, taskMap allTasks !! k = Some task -> id task = k)
    by (intros k task Hk; by apply taskMap_lookup_Some in Hk as [? _]).
  split; [|split; [done|split; [done|split; [|split]]]].
  - intros taskId depth task Hm Hc. split.
    + rewrite summary_formatTask_walk. eapply walk_skipped; [done|].
      rewrite summary_skip_closed by done. unfold closed. by rewrite Hc.
    + rewrite tree_formatTask_walk. eapply walk_skipped; [done|].
      rewrite tree_skip_closed by done. unfold closed. by rewrite Hc.
  - intros x. rewrite summary_run_ids, elem_of_concat. split.
    + intros (ids & Hx & (top & -> & Htop)%list_elem_of_fmap).
      exists top. split; [done|]. by apply Hsum.
    + intros (top & Htop & Hl). eexists. split; [by apply Hsum|].
      by apply (list_elem_of_fmap_2
                  (fun task => task_ids (Summary.formatTask sargs allTasks (id task) 0))).
  - intros out x Hrun. by rewrite (tree_run_ids _ _ _ Hrun).
  - intros Huniq. split.
    + intros a task x Hroots Ha Hc Hax Hx.
      rewrite summary_run_ids in Hx.
      apply elem_of_concat in Hx as (ids & Hx & (top & -> & Htop)%list_elem_of_fmap).
      apply Hsum in Hx.
      destruct (linked_ancestor _ _ _ _ _ _ _ Hkeys Huniq Hx Hax)
        as [(task' & Ha' & Hopen)|Hatop].
      * rewrite Ha in Ha'. injection Ha' as <-. unfold closed in Hopen.
        by rewrite Hc in Hopen.
      * destruct (tc_child_last _ _ _ Hatop) as (p & _ & Hp).
        by apply (Hroots p top).
    + intros out a task x Hrun Ha Hc Hax Hx.
      rewrite (tree_run_ids _ _ _ Hrun) in Hx. apply Htree in Hx.
      destruct (linked_ancestor _ _ _ _ _ _ _ Hkeys Huniq Hx Hax)
        as [(task' & Ha' & Hopen)|Hastart]; [|done].
      rewrite Ha in Ha'. injection Ha' as <-. unfold closed in Hopen.
      by rewrite Hc in Hopen.
Qed.


(** ** The pages together *)

Lemma concat_fmap_concat {A B} (f : A -> list B) (ls : list (list A)) :
  concat (f <$> concat ls) = concat ((fun l => concat (f <$> l)) <$> ls).
Proof.
  induction ls as [|l ls IH]; [done|].
  cbn [concat fmap list_fmap]. by rewrite fmap_app, concat_app, IH.
Qed.

(** Slices of length one, taken at every index, give the list back. *)
Lemma concat_unit_slices {A} (l : list A) :
  concat ((fun k => take 1 (drop k l)) <$> seq 0 (length l)) = l.
Proof.
  induction l as [|a l IH]; [done|].
  cbn [length seq fmap list_fmap concat]. rewrite <- fmap_S_seq.
  rewrite <- list_fmap_compose. cbn [drop take app]. f_equal. exact IH.
Qed.

Lemma paginated_pageTasks_slice (args : Paginated.Args) (allTasks : list Task)
    (k : nat) :
  (k < length (topLevel allTasks))%nat ->
  Paginated.pageTasks (with_page args (Z.of_nat k + 1)) allTasks =
  take 1 (drop k (topLevel allTasks)).
Proof.
  intros Hk.
  unfold Paginated.pageTasks, Paginated.slice, Paginated.pageNum,
    Paginated.pageSize, Paginated.topLevelTasks.
  cbn [Paginated.page with_page].
  replace (Z.to_nat (Z.of_nat k + 1 - 1) * 1)%nat with k by lia.
  f_equal. lia.
Qed.

(** The ids of all pages, one page after the other, are the ids of one walk
    over all top-level tasks. *)
Lemma pages_concat (args : Paginated.Args) (allTasks : list Task) :
  concat (page_ids args allTasks <$> pages args allTasks) =
  concat ((fun task => task_ids (Paginated.formatTask args allTasks (id task) 0))
          <$> topLevel allTasks).
Proof.
  unfold pages, seqZ.
  rewrite paginated_totalPages_length, Nat2Z.id, <- list_fmap_compose.
  rewrite <- (concat_unit_slices (topLevel allTasks)) at 2.
  rewrite concat_fmap_concat, <- list_fmap_compose.
  f_equal. apply list_fmap_ext. intros i k [-> Hi]%lookup_seq. cbn.
  unfold page_ids.
  rewrite paginated_run_inside
    by (cbn [Paginated.page with_page]; rewrite paginated_totalPages_length; lia).
  cbn [returned_ids]. rewrite paginated_body_ids.
  rewrite paginated_pageTasks_slice by lia. done.
Qed.




(** ** Forests *)

Lemma Tree_ind (P : Tree -> Prop) :
  (forall record kids, Forall P kids -> P (Node record kids)) ->
  forall t, P t.
Proof.
  intros Hnode. fix IH 1. intros [record kids]. apply Hnode.
  induction kids as [|kid kids IHkids]; constructor; [apply IH|exact IHkids].
Qed.

Lemma fmap_concat {A B} (f : A -> B) (ls : list (list A)) :
  f <$> concat ls =@{list B} concat ((fun l : list A => f <$> l) <$> ls).
Proof.
  induction ls as [|l ls IH]; [done|].
  cbn [concat]. by rewrite fmap_app, IH.
Qed.

Lemma topLevel_app (l1 l2 : list Task) :
  topLevel (l1 ++ l2) = topLevel l1 ++ topLevel l2.
Proof. apply filter_app. Qed.

Lemma topLevel_concat_nil (ls : list (list Task)) :
  Forall (fun l => topLevel l = []) ls -> topLevel (concat ls) = [].
Proof.
  induction 1 as [|l ls Hl _ IH]; [done|].
  cbn [concat]. by rewrite topLevel_app, Hl, IH.
Qed.

Lemma elem_of_flatten_kid (record : Task) (kids : list Tree) (kid : Tree)
    (task : Task) :
  kid ∈ kids -> task ∈ flatten kid -> task ∈ flatten (Node record kids).
Proof.
  intros Hkid Htask. cbn [flatten]. right. apply elem_of_concat.
  exists (flatten kid). split; [done|]. by apply list_elem_of_fmap_2.
Qed.

(** In the records of an encoded tree only the root can be top-level, and
    it is when the tree hangs under [0]. *)
Lemma encodes_topLevel (t : Tree) (parent : Z) :
  encodes parent t -> Forall (fun task => id task <> 0) (flatten t) ->
  topLevel (flatten t) = if decide (parent = 0) then [root t] else [].
Proof.
  revert parent. induction t as [record kids IH] using Tree_ind.
  intros parent Henc Hnz. inversion Henc as [? ? ? Hp _ Hkids]; subst.
  cbn [flatten root] in *. apply Forall_cons in Hnz as [Hrecord Hnz].
  assert (Hbelow : topLevel (concat (flatten <$> kids)) = []).
  { apply topLevel_concat_nil, Forall_fmap, Forall_forall. intros kid Hkid.
    pose proof (proj1 (Forall_forall _ _) IH kid Hkid (id record)) as IHkid.
    pose proof (proj1 (Forall_forall _ _) Hkids kid Hkid) as Henckid.
    pose proof (proj1 (Forall_forall _ _) Hnz) as Hnz'.
    cbn. rewrite IHkid; [by rewrite decide_False|done|].
    apply Forall_forall. intros task Htask. apply Hnz', elem_of_concat.
    exists (flatten kid). split; [done|]. by apply list_elem_of_fmap_2. }
  unfold topLevel in *. rewrite filter_cons, Hbelow.
  by repeat case_decide.
Qed.

Lemma forest_topLevel (forest : list Tree) :
  Forall (encodes 0) forest ->
  Forall (fun task => id task <> 0) (concat (flatten <$> forest)) ->
  topLevel (concat (flatten <$> forest)) = root <$> forest.
Proof.
  induction 1 as [|t forest Ht _ IH]; [done|].
  cbn [fmap list_fmap concat]. intros [Hnz1 Hnz2]%Forall_app.
  rewrite topLevel_app, (encodes_topLevel _ _ Ht Hnz1), decide_True by done.
  cbn [app]. f_equal. by apply IH.
Qed.

Section ForestWalk.
Context (m : gmap Z Task) (maxDepth : Z).
Context (skip : Task -> bool).
Context (own elided : Task -> nat -> list Line).
Hypothesis skip_none : forall task, skip task = false.
Hypothesis own_ids : forall task depth, task_ids (own task depth) = [id task].
Hypothesis elided_ids : forall task depth, task_ids (elided task depth) = [].

(** A walk that filters nothing, started at the root of an encoded tree
    that fits under the depth bound, shows the tree's records, parents
    before children. *)
Lemma walk_ids_tree (t : Tree) (parent : Z) (depth : nat) :
  encodes parent t ->
  (forall task, task ∈ flatten t -> m !! id task = Some task) ->
  Z.of_nat depth + Z.of_nat (height t) <= maxDepth ->
  task_ids (walk m maxDepth skip own elided (id (root t)) depth) =
  id <$> flatten t.
Proof.
  revert parent depth. induction t as [record kids IH] using Tree_ind.
  intros parent depth Henc Hm Hh.
  inversion Henc as [? ? ? Hp Hsub Hkids]; subst.
  rewrite walk_ids_unfold by done. cbn [root flatten].
  rewrite (Hm record), skip_none by (cbn [flatten]; left).
  rewrite fmap_cons. destruct kids as [|kid kids].
  { cbn in Hsub. rewrite Hsub. by destruct (_ <? _). }
  cbn [height] in Hh.
  destruct (Z.ltb_spec (Z.of_nat depth) maxDepth); [|lia].
  f_equal. rewrite Hsub, <- list_fmap_compose, fmap_concat, <- list_fmap_compose.
  f_equal. apply list_fmap_ext. intros _ k Hk%list_elem_of_lookup_2. cbn.
  pose proof (proj1 (Forall_forall _ _) IH k Hk) as IHk.
  pose proof (proj1 (Forall_forall _ _) Hkids k Hk) as Henck.
  eapply IHk; [exact Henck| |].
  - intros task Htask. eapply Hm, elem_of_flatten_kid; done.
  - assert (height k <= max_list (height <$> kid :: kids))%nat
      by by apply max_list_elem_of_le, list_elem_of_fmap_2.
    lia.
Qed.
End ForestWalk.

(** C4, as the code has it.  When the task collection is the flat encoding
    of a forest (unique ids other than [0], every record listing exactly its
    children and naming its parent) and no tree of the forest is higher than
    the depth bound in force (99 by default), the summary that includes
    closed tasks shows one task line for every record: the ids of its task
    lines are the ids of the records, each once, and their number is the
    total the stats view reports. *)
Theorem summary_lines_match_total_on_forests (args : Summary.Args)
    (allTasks : list Task) (forest : list Tree) :
  encodes_forest allTasks forest ->
  Summary.include_closed args = Some true ->
  Forall (fun t => Z.of_nat (height t) <= Summary.maxDepth args) forest ->
  task_ids (Summary.run args allTasks) ≡ₚ id <$> allTasks
  /\ NoDup (task_ids (Summary.run args allTasks))
  /\ length (task_ids (Summary.run args allTasks)) = Stats.total allTasks.
Proof.
  intros [Hrec Hdup Hnz Hroots] Hc Hh.
  assert (Hids : task_ids (Summary.run args allTasks) ≡ₚ id <$> allTasks).
  { rewrite summary_run_ids, concat_mjoin.
    assert (Htop : topLevel allTasks ≡ₚ root <$> forest).
    { unfold topLevel. rewrite Hrec. apply reflexive_eq, forest_topLevel; [done|].
      by rewrite <- Hrec. }
    rewrite Htop, <- concat_mjoin, <- list_fmap_compose.
    transitivity (id <$> concat (flatten <$> forest)); [|by rewrite <- Hrec].
    rewrite fmap_concat, <- list_fmap_compose.
    apply reflexive_eq. f_equal. apply list_fmap_ext.
    intros _ t Ht%list_elem_of_lookup_2. unfold compose.
    pose proof (proj1 (Forall_forall _ _) Hroots t Ht) as Henc.
    pose proof (proj1 (Forall_forall _ _) Hh t Ht) as Hht.
    rewrite summary_formatTask_walk.
    eapply walk_ids_tree;
      [intros; by apply summary_skip_none|apply summary_own_ids|
       apply summary_elided_ids|exact Henc| |].
    - intros task Htask. apply taskMap_lookup_NoDup; [done|].
      rewrite Hrec. apply elem_of_concat. exists (flatten t).
      split; [done|]. by apply list_elem_of_fmap_2.
    - cbn in Hht. lia. }
  split; [done|split].
  - by rewrite Hids.
  - unfold Stats.total. by rewrite Hids, length_fmap.
Qed.

(** ** The depth computation of the stats view *)

Lemma has_subtasks_elem (task : Task) (c : Z) :
  c ∈ subtasks task -> has_subtasks task = true.
Proof.
  unfold subtasks, has_subtasks.
  destruct (tasks task) as [[|? ?]|]; cbn; by try intros ?%elem_of_nil.
Qed.

Lemma getDepth_fuel_mono (allTasks : list Task) (fuel fuel' : nat) (taskId : Z)
    (currentDepth v : nat) :
  Stats.getDepth_fuel allTasks fuel taskId currentDepth = Some v ->
  (fuel <= fuel')%nat ->
  Stats.getDepth_fuel allTasks fuel' taskId currentDepth = Some v.
Proof.
  revert fuel' taskId currentDepth v.
  induction fuel as [|fuel IH]; intros fuel' taskId d v; [done|].
  destruct fuel' as [|fuel']; [lia|]. intros Hrun Hle.
  cbn [Stats.getDepth_fuel] in *.
  destruct (taskMap allTasks !! taskId) as [task|]; [|done].
  destruct (negb (has_subtasks task)); [done|].
  destruct (mapM _ (subtasks task)) as [childDepths|] eqn:Hkids; [|done].
  erewrite (proj2 (mapM_Some _ _ childDepths)); [done|].
  apply mapM_Some in Hkids.
  eapply Forall2_impl; [exact Hkids|]. cbn. intros c r Hc.
  apply IH; [done|lia].
Qed.

(** On a cycle of child references the recursion never returns: there is
    no record of the ids already visited. *)
Lemma getDepth_fuel_cycle (allTasks : list Task) (fuel : nat) (taskId : Z)
    (currentDepth : nat) :
  tc (child_of (taskMap allTasks)) taskId taskId ->
  Stats.getDepth_fuel allTasks fuel taskId currentDepth = None.
Proof.
  revert taskId currentDepth.
  induction fuel as [|fuel IH]; intros taskId d Hcycle; [done|].
  assert (exists c, child_of (taskMap allTasks) taskId c /\
                    tc (child_of (taskMap allTasks)) c c)
    as (c & (task & Hm & Hc) & Hcc).
  { inversion Hcycle as [? ? Hstep|? c ? Hstep Hback]; subst.
    - exists taskId. by split.
    - exists c. split; [done|]. by eapply tc_r. }
  cbn [Stats.getDepth_fuel]. rewrite Hm, (has_subtasks_elem _ _ Hc). cbn [negb].
  rewrite (proj2 (mapM_None _ _)); [done|].
  apply Exists_exists. exists c. split; [done|]. by apply IH.
Qed.

(** Everything a task reaches by child references is listed as a child by
    some record of the collection. *)
Lemma child_of_finite (allTasks : list Task) (taskId : Z) :
  pred_finite (tc (child_of (taskMap allTasks)) taskId).
Proof.
  exists (concat (subtasks <$> allTasks)).
  assert (Hstep : forall x y, child_of (taskMap allTasks) x y ->
                    y ∈ concat (subtasks <$> allTasks)).
  { intros x y (task & [_ Hin]%taskMap_lookup_Some & Hy).
    apply elem_of_concat. exists (subtasks task).
    split; [done|]. by apply list_elem_of_fmap_2. }
  intros y Hy. induction Hy; eauto.
Qed.

(** One amount of fuel serves all the children that return. *)
Lemma getDepth_children (allTasks : list Task) (currentDepth : nat)
    (children : list Z) :
  (forall c, c ∈ children ->
     exists fuel v, Stats.getDepth_fuel allTasks fuel c currentDepth = Some v) ->
  exists fuel childDepths,
    mapM (fun childId => Stats.getDepth_fuel allTasks fuel childId currentDepth)
         children = Some childDepths.
Proof.
  induction children as [|c children IH]; intros Hall.
  { by exists O, []. }
  destruct (Hall c) as (fuel1 & v & Hc); [by left|].
  destruct IH as (fuel2 & vs & Hrest); [intros; apply Hall; by right|].
  exists (Nat.max fuel1 fuel2), (v :: vs).
  apply mapM_Some. constructor.
  - eapply getDepth_fuel_mono; [done|lia].
  - apply mapM_Some in Hrest. eapply Forall2_impl; [exact Hrest|].
    cbn. intros c' v' Hc'. eapply getDepth_fuel_mono; [done|lia].
Qed.

Lemma getDepth_acyclic (allTasks : list Task) (taskId : Z) (currentDepth : nat) :
  (forall i, ~ tc (child_of (taskMap allTasks)) i i) ->
  exists fuel v, Stats.getDepth_fuel allTasks fuel taskId currentDepth = Some v.
Proof.
  intros Hacyclic.
  assert (Hsn : sn (child_of (taskMap allTasks)) taskId)
    by (apply tc_finite_sn; [exact Hacyclic|apply child_of_finite]).
  revert currentDepth. induction Hsn as [taskId _ IH]. intros d.
  destruct (taskMap allTasks !! taskId) as [task|] eqn:Hm;
    [|exists 1%nat, d; cbn; by rewrite Hm].
  destruct (has_subtasks task) eqn:Hk;
    [|exists 1%nat, d; cbn; by rewrite Hm, Hk].
  destruct (getDepth_children allTasks (S d) (subtasks task))
    as (fuel & childDepths & Hkids).
  { intros c Hc. apply IH. by exists task. }
  exists (S fuel), (max_list childDepths). cbn. by rewrite Hm, Hk, Hkids.
Qed.

Lemma getDepth_kids {K} (allTasks : list Task) (currentDepth : nat)
    (f : K -> Z) (g : K -> nat) (kids : list K) :
  (forall k, k ∈ kids ->
     exists fuel, Stats.getDepth_fuel allTasks fuel (f k) currentDepth
                  = Some (g k)) ->
  exists fuel,
    mapM (fun childId => Stats.getDepth_fuel allTasks fuel childId currentDepth)
         (f <$> kids) = Some (g <$> kids).
Proof.
  induction kids as [|k kids IH]; intros Hall.
  { by exists O. }
  destruct (Hall k) as (fuel1 & Hk); [by left|].
  destruct IH as (fuel2 & Hrest); [intros; apply Hall; by right|].
  exists (Nat.max fuel1 fuel2). rewrite !fmap_cons.
  apply mapM_Some. constructor.
  - eapply getDepth_fuel_mono; [done|lia].
  - apply mapM_Some in Hrest. eapply Forall2_impl; [exact Hrest|].
    cbn. intros c' v' Hc'. eapply getDepth_fuel_mono; [done|lia].
Qed.

Lemma max_list_fmap_add {K} (n : nat) (f : K -> nat) (k : K) (kids : list K) :
  max_list ((fun x => n + f x)%nat <$> k :: kids) =
  (n + max_list (f <$> k :: kids))%nat.
Proof.
  revert k. induction kids as [|k' kids IH]; intros k.
  - cbn. lia.
  - rewrite fmap_cons, (fmap_cons f). cbn [max_list foldr].
    rewrite IH. unfold Datatypes.id. lia.
Qed.

(** On the encoding of a tree, [getDepth] started at the root returns the
    start depth plus the height of the tree: [height] is the depth the
    stats view measures. *)
Lemma getDepth_tree (allTasks : list Task) (t : Tree) (parent : Z)
    (currentDepth : nat) :
  encodes parent t ->
  (forall task, task ∈ flatten t -> taskMap allTasks !! id task = Some task) ->
  exists fuel,
    Stats.getDepth_fuel allTasks fuel (id (root t)) currentDepth
    = Some (currentDepth + height t)%nat.
Proof.
  revert parent currentDepth. induction t as [record kids IH] using Tree_ind.
  intros parent d Henc Hm. inversion Henc as [? ? ? Hp Hsub Hkids]; subst.
  pose proof (Hm record ltac:(by left)) as Hrecord. cbn [root].
  destruct kids as [|kid kids].
  { exists 1%nat. cbn [Stats.getDepth_fuel]. rewrite Hrecord.
    unfold has_subtasks. unfold subtasks in Hsub.
    destruct (tasks record) as [[|? ?]|]; cbn in *; first [done|f_equal; lia]. }
  destruct (getDepth_kids allTasks (S d) (fun k => id (root k))
              (fun k => (S d + height k)%nat) (kid :: kids)) as (fuel & Hfuel).
  { intros k Hk.
    pose proof (proj1 (Forall_forall _ _) IH k Hk) as IHk.
    pose proof (proj1 (Forall_forall _ _) Hkids k Hk) as Henck.
    eapply IHk; [exact Henck|].
    intros task Htask. eapply Hm, elem_of_flatten_kid; done. }
  exists (S fuel). cbn [Stats.getDepth_fuel]. rewrite Hrecord.
  assert (has_subtasks record = true) as ->.
  { apply (has_subtasks_elem _ (id (root kid))). rewrite Hsub. by left. }
  cbn [negb]. rewrite Hsub, Hfuel. cbn [mbind option_bind].
  rewrite max_list_fmap_add. cbn [height]. f_equal. lia.
Qed.

(** C2, as the code has it.  [getDepth] keeps no record of visited ids.  It
    returns from every start exactly when the child references of the
    collection form no cycle, and then the stats view returns; started on a
    cycle it never returns. *)
Theorem getDepth_returns_iff_acyclic (toFixed1_finite : Q -> string)
    (args : Stats.Args) (allTasks : list Task) :
  ((forall taskId currentDepth, exists fuel v,
      Stats.getDepth_fuel allTasks fuel taskId currentDepth = Some v) <->
   (forall i, ~ tc (child_of (taskMap allTasks)) i i))
  /\ ((forall i, ~ tc (child_of (taskMap allTasks)) i i) ->
      exists fuel out,
        Stats.run_fuel toFixed1_finite args allTasks fuel = Some out)
  /\ (forall taskId currentDepth fuel,
        tc (child_of (taskMap allTasks)) taskId taskId ->
        Stats.getDepth_fuel allTasks fuel taskId currentDepth = None).
Proof.
  split; [|split].
  - split.
    + intros Hret i Hcycle. destruct (Hret i O) as (fuel & v & Hrun).
      by rewrite getDepth_fuel_cycle in Hrun.
    + intros Hacyclic taskId d. by apply getDepth_acyclic.
  - intros Hacyclic. unfold Stats.run_fuel.
    generalize (Stats.topLevelTasks allTasks). intros roots.
    assert (exists fuel depths,
              mapM (fun task => Stats.getDepth_fuel allTasks fuel (id task) 0)
                   roots = Some depths) as (fuel & depths & Hd).
    { induction roots as [|task roots (fuel2 & vs & Hrest)]; [by exists O, []|].
      destruct (getDepth_acyclic allTasks (id task) O Hacyclic)
        as (fuel1 & v & Hv).
      exists (Nat.max fuel1 fuel2), (v :: vs).
      apply mapM_Some. constructor.
      - eapply getDepth_fuel_mono; [done|lia].
      - apply mapM_Some in Hrest. eapply Forall2_impl; [exact Hrest|].
        cbn. intros c' v' Hc'. eapply getDepth_fuel_mono; [done|lia]. }
    exists fuel. rewrite Hd. by eexists.
  - intros taskId d fuel Hcycle. by apply getDepth_fuel_cycle.
Qed.

(** * The properties on the sample checklists *)

(** C1 fails as stated.  The paginated view has no closed-task filter: page
    1 of the sample shows the closed task 12 and its child 121.  And the
    task-tree view started at 121 shows it, although its parent 12 is
    closed. *)
Lemma paginated_shows_below_closed :
  closed t12 = true
  /\ child_of (taskMap sample) 12 121
  /\ returned_ids (Paginated.run (page_args 1 None None) sample) = [1; 11; 12; 121]
  /\ returned_ids (TaskTree.run (tree_args 121 None None None) sample) = [121].
Proof.
  split; [done|split; [|done]].
  exists t12. split; [done|]. by left.
Qed.

(** The child references of the sample: it is tree-shaped. *)
Lemma sample_child_of (p c : Z) :
  child_of (taskMap sample) p c ->
  (p = 1 /\ c = 11) \/ (p = 1 /\ c = 12) \/ (p = 12 /\ c = 121).
Proof.
  intros (task & [<- Hin]%taskMap_lookup_Some & Hc).
  unfold sample in Hin.
  repeat (apply elem_of_cons in Hin as [->|Hin]);
    [..|by apply elem_of_nil in Hin]; cbn in Hc;
    repeat (apply elem_of_cons in Hc as [->|Hc]);
    try (by apply elem_of_nil in Hc); cbn; auto.
Qed.

Lemma sample_unique_parent (p1 p2 c : Z) :
  child_of (taskMap sample) p1 c -> child_of (taskMap sample) p2 c -> p1 = p2.
Proof. intros H1%sample_child_of H2%sample_child_of. lia. Qed.

Lemma sample_roots_unlisted (p : Z) (top : Task) :
  top ∈ topLevel sample -> ~ child_of (taskMap sample) p (id top).
Proof.
  intros Htop Hp%sample_child_of.
  change (topLevel sample) with [t1; t2] in Htop.
  repeat (apply elem_of_cons in Htop as [->|Htop]);
    [..|by apply elem_of_nil in Htop]; cbn in Hp; lia.
Qed.

Lemma closed_tasks_prune_witness :
  (Summary.formatTask (summary_args None None None) sample 12 1 = []
   /\ TaskTree.formatTask (tree_args 1 None None None) sample 12 1 = [])
  /\ 121 ∉ task_ids (Summary.run (summary_args None None None) sample).
Proof.
  pose proof (closed_tasks_prune_their_subtree (summary_args None None None)
                (tree_args 1 None None None) sample
                ltac:(done) ltac:(done)) as (Hclosed & _ & _ & _ & _ & Htree).
  split; [exact (Hclosed 12 1%nat t12 eq_refl eq_refl)|].
  apply (proj1 (Htree sample_unique_parent) 12 t12 121 sample_roots_unlisted);
    [done|done|].
  apply tc_once. exists t12. split; [done|]. by left.
Defined.

(** C2 fails as stated.  On two records that list each other the depth
    computation started at the top-level one never returns, with whatever
    fuel; nor does the stats view. *)
Lemma getDepth_cycle_diverges :
  ~ (exists fuel v, Stats.getDepth_fuel looped fuel 1 0 = Some v)
  /\ ~ (exists fuel out,
          Stats.run_fuel (fun _ => "") {| Stats.checklist_id := 7 |} looped fuel
          = Some out).
Proof.
  assert (Hcycle : tc (child_of (taskMap looped)) 1 1).
  { eapply tc_l; [|apply tc_once].
    - exists (mkTask 1 0 0 (Some [2])). split; [done|]. by left.
    - exists (mkTask 2 1 0 (Some [1])). split; [done|]. by left. }
  split.
  - intros (fuel & v & Hrun). by rewrite getDepth_fuel_cycle in Hrun.
  - intros (fuel & out & Hrun). unfold Stats.run_fuel in Hrun.
    cbn [Stats.topLevelTasks topLevel looped filter list_filter] in Hrun.
    change (mapM (fun task => Stats.getDepth_fuel looped fuel (id task) 0)
                 [mkTask 1 0 0 (Some [2])] ≫= (fun depths => Some
               (Stats.report (fun _ => "") {| Stats.checklist_id := 7 |}
                  looped depths)) = Some out) in Hrun.
    cbn [mapM] in Hrun.
    change (id (mkTask 1 0 0 (Some [2]))) with 1 in Hrun.
    by rewrite getDepth_fuel_cycle in Hrun.
Qed.

(** C4 fails as stated.  A record whose parent is missing is counted in the
    total and never shown; and a chain of 101 levels is cut at the default
    depth bound 99. *)
Lemma summary_misses_orphan_record :
  task_ids (Summary.run (summary_args None (Some true) None) orphan) = []
  /\ Stats.total orphan = 1%nat
  /\ length (task_ids (Summary.run (summary_args None (Some true) None)
                         (chain 101))) = 100%nat
  /\ Stats.total (chain 101) = 101%nat.
Proof. by vm_compute. Qed.

Lemma sample_encodes_forest : encodes_forest sample sample_forest.
Proof.
  split.
  - done.
  - apply (bool_decide_unpack _). by vm_compute.
  - by repeat constructor.
  - repeat (constructor || done).
Defined.

Lemma summary_lines_match_total_witness :
  task_ids (Summary.run (summary_args None (Some true) None) sample)
    ≡ₚ id <$> sample
  /\ NoDup (task_ids (Summary.run (summary_args None (Some true) None) sample))
  /\ length (task_ids (Summary.run (summary_args None (Some true) None) sample))
     = Stats.total sample.
Proof.
  apply (summary_lines_match_total_on_forests
           (summary_args None (Some true) None) sample sample_forest).
  - exact sample_encodes_forest.
  - done.
  - repeat constructor; by vm_compute.
Defined.


(** C6: on the empty collection the stats view returns, and the closed
    fraction it prints is [NaN], not [0]. *)
Lemma stats_empty_closed_fraction (toFixed1_finite : Q -> string)
    (args : Stats.Args) (fuel : nat) :
  Stats.closedPercent toFixed1_finite [] = "NaN"
  /\ exists out,
       Stats.run_fuel toFixed1_finite args [] fuel = Some out
       /\ Plain (CHECK +:+ " Closed tasks: 0 (NaN%)" +:+ NL) ∈ out.
Proof.
  split; [done|]. eexists. split; [done|].
  cbn. do 4 right. by left.
Qed.

(** C7 fails as stated.  With depth bound 0 the sample's task 1 is visited
    at the bound and has two children: the summary in compact mode and the
    paginated view in ultra-compact mode print no marker, and the marker of
    the full-mode summary names no depth value. *)
Lemma compact_modes_print_no_marker :
  has_subtasks t1 = true
  /\ markers (Summary.run (summary_args (Some 0) (Some true) (Some true)) sample)
     = []
  /\ Paginated.run (page_args 1 (Some 0) (Some true)) sample
     = Returned (Paginated.header (page_args 1 (Some 0) (Some true)) sample ++
                 [TaskLine 1 ("1: task 1" +:+ NL); Plain NL] ++
                 Paginated.footer (page_args 1 (Some 0) (Some true)) sample)
  /\ markers (Summary.run (summary_args (Some 0) (Some true) None) sample)
     = [Marker 2 ("  ... (2 more subtasks, increase max_depth to see)" +:+ NL)].
Proof. by vm_compute. Qed.

Lemma subtree_expansion_witness :
  TaskTree.formatTask (tree_args 1 (Some 0) None None) sample 1 0 =
  TaskTree.own (tree_args 1 (Some 0) None None) t1 0 ++
  [Marker 2 ("  ... (2 more subtasks, use max_depth=1)" +:+ NL)].
Proof.
  refine (proj2 (proj1 (proj2 (subtree_expansion_by_view
            (summary_args None None None) (tree_args 1 (Some 0) None None)
            (page_args 1 None None) sample 1 0%nat t1 _)) _) _ _); done.
Defined.

(** C8: the full mode of the summary prints an invalidated task with the
    glyph of an open one. *)
Lemma summary_full_conflates_invalidated :
  render (Summary.formatTask (summary_args None (Some true) None)
            [mkTask 2 0 2 None] 2 0)
  = "[ ] task 2 [ID: 2]" +:+ NL
  /\ render (Summary.formatTask (summary_args None (Some true) None)
               [mkTask 2 0 0 None] 2 0)
     = "[ ] task 2 [ID: 2]" +:+ NL
  /\ render (TaskTree.formatTask (tree_args 2 None (Some true) None)
               [mkTask 2 0 2 None] 2 0)
     = "[" +:+ CROSS +:+ "] task 2 [2]" +:+ NL
  /\ render (Summary.formatTask (summary_args None (Some true) (Some true))
               [mkTask 2 0 2 None] 2 0)
     = "[" +:+ CROSS +:+ "] task 2 [2]" +:+ NL.
Proof. by vm_compute. Qed.


(** * Further properties of the views *)

(** ** The task map and the ids shown *)

(** X1.  When several records carry the same id, the map holds the last of
    them: a lookup gives the last record of the collection with that id,
    and nothing when there is none. *)
Theorem taskMap_lookup_last (allTasks : list Task) (i : Z) :
  taskMap allTasks !! i = last (filter (fun task => id task = i) allTasks).
Proof.
  induction allTasks as [|task allTasks IH] using rev_ind; [done|].
  rewrite taskMap_snoc, filter_app, lookup_insert.
  rewrite filter_cons, filter_nil. case_decide as Hi.
  - by rewrite last_snoc.
  - by rewrite app_nil_r.
Qed.

Lemma linked_in_collection (allTasks : list Task) (maxDepth : Z)
    (skip : Task -> bool) (rootId : Z) (depth : nat) (x : Z) :
  linked (taskMap allTasks) maxDepth skip rootId depth x ->
  exists task, task ∈ allTasks /\ id task = x /\ skip task = false /\
               taskMap allTasks !! x = Some task.
Proof.
  induction 1 as [r d task Hm Hs|]; [|done].
  destruct (taskMap_lookup_Some _ _ _ Hm) as [Hid Hin].
  exists task. by rewrite Hid.
Qed.

(** X2.  No view prints an id that is not the id of a record of the
    collection: a child reference without a record leaves no line.  What
    the summary and the task-tree view print without [include_closed] is
    moreover the id of a record that is not closed. *)
Theorem shown_ids_have_records (sargs : Summary.Args) (targs : TaskTree.Args)
    (pargs : Paginated.Args) (allTasks : list Task) (x : Z) :
  (x ∈ task_ids (Summary.run sargs allTasks) ->
   exists task, task ∈ allTasks /\ id task = x /\
                Summary.skip sargs task = false)
  /\ (x ∈ returned_ids (TaskTree.run targs allTasks) ->
      exists task, task ∈ allTasks /\ id task = x /\
                   TaskTree.skip targs task = false)
  /\ (x ∈ returned_ids (Paginated.run pargs allTasks) -> x ∈ id <$> allTasks).
Proof.
  split; [|split].
  - rewrite summary_run_ids, elem_of_concat.
    intros (ids & Hx & (top & -> & _)%list_elem_of_fmap).
    rewrite summary_formatTask_walk, walk_ids_linked in Hx
      by auto using summary_own_ids, summary_elided_ids.
    apply linked_in_collection in Hx as (task & ? & ? & ? & _). by exists task.
  - destruct (TaskTree.run targs allTasks) as [out|] eqn:Hrun;
      [|by intros ?%elem_of_nil].
    cbn [returned_ids]. rewrite (tree_run_ids _ _ _ Hrun).
    rewrite tree_formatTask_walk, walk_ids_linked
      by auto using tree_own_ids, tree_elided_ids.
    intros (task & ? & ? & ? & _)%linked_in_collection. by exists task.
  - destruct (Paginated.run pargs allTasks) as [out|] eqn:Hrun;
      [|by intros ?%elem_of_nil].
    cbn [returned_ids]. rewrite (paginated_run_ids _ _ _ Hrun), elem_of_concat.
    intros (ids & Hx & (top & -> & _)%list_elem_of_fmap).
    rewrite paginated_formatTask_walk, walk_ids_linked in Hx
      by auto using paginated_own_ids, paginated_elided_ids.
    apply linked_in_collection in Hx as (task & ? & <- & _).
    by apply list_elem_of_fmap_2.
Qed.

(** ** The start of the task-tree view *)

(** X3.  The task-tree view throws its not-found error exactly when no
    record of the collection has the requested id. *)
Theorem tree_not_found_iff (args : TaskTree.Args) (allTasks : list Task) :
  TaskTree.run args allTasks =
    Thrown ("Task " +:+ pretty (TaskTree.task_id args) +:+
            " not found in checklist " +:+ pretty (TaskTree.checklist_id args))
  <-> TaskTree.task_id args ∉ id <$> allTasks.
Proof.
  unfold TaskTree.run. split.
  - intros Hrun (task & Hid & Hin)%list_elem_of_fmap.
    destruct (taskMap_lookup_is_Some _ _ Hin) as [found Hfound].
    by rewrite Hid, Hfound in Hrun.
  - intros Hid. by rewrite taskMap_lookup_None.
Qed.

(** X4.  When the requested task exists but is closed, and
    [include_closed] is not set, the task-tree view neither fails nor shows
    the task: it returns its two header chunks, which name the task, and
    nothing below them. *)
Theorem tree_closed_root_header_only (args : TaskTree.Args)
    (allTasks : list Task) (rootTask : Task) :
  taskMap allTasks !! TaskTree.task_id args = Some rootTask ->
  status rootTask = 1 ->
  TaskTree.include_closed args <> Some true ->
  TaskTree.run args allTasks =
    Returned
      [Plain (TREE +:+ " Task: " +:+ content rootTask +:+ NL);
       Plain ("Depth: " +:+ pretty (TaskTree.maxDepth args) +:+ ", " +:+
              (if TaskTree.compactMode args then "Compact" else "Full") +:+
              " mode" +:+ NL +:+ NL)].
Proof.
  intros Hroot Hclosed Hinc. unfold TaskTree.run. rewrite Hroot.
  rewrite tree_formatTask_walk, (walk_skipped _ _ _ _ _ _ _ rootTask); [done..|].
  rewrite tree_skip_closed by done. unfold closed. by rewrite Hclosed.
Qed.

Lemma tree_closed_root_witness :
  TaskTree.run (tree_args 12 None None None) sample =
    Returned [Plain (TREE +:+ " Task: task 12" +:+ NL);
              Plain ("Depth: 3, Full mode" +:+ NL +:+ NL)].
Proof.
  exact (tree_closed_root_header_only (tree_args 12 None None None) sample t12
           eq_refl eq_refl ltac:(done)).
Defined.

(** ** What the options change *)

Lemma linked_mono (m : gmap Z Task) (maxDepth1 maxDepth2 : Z)
    (skip1 skip2 : Task -> bool) (rootId : Z) (depth : nat) (x : Z) :
  maxDepth1 <= maxDepth2 ->
  (forall task, skip1 task = false -> skip2 task = false) ->
  linked m maxDepth1 skip1 rootId depth x ->
  linked m maxDepth2 skip2 rootId depth x.
Proof.
  intros Hd Hskip.
  induction 1 as [r d task Hm Hs|r d task c x Hm Hs Hlt Hc _ IH].
  - eapply linked_here; [done|by apply Hskip].
  - eapply linked_below; [done|by apply Hskip|lia|done|done].
Qed.

Lemma summary_skip_mono (args1 args2 : Summary.Args) (task : Task) :
  (Summary.include_closed args1 = Some true ->
   Summary.include_closed args2 = Some true) ->
  Summary.skip args1 task = false -> Summary.skip args2 task = false.
Proof.
  unfold Summary.skip, Summary.includeClosed. intros Himp.
  destruct (decide (Summary.include_closed args1 = Some true)) as [H1|H1].
  - by rewrite (bool_decide_eq_true_2 _ (Himp H1)).
  - rewrite (bool_decide_eq_false_2 _ H1). cbn. intros ->.
    by rewrite andb_false_r.
Qed.

Lemma tree_skip_mono (args1 args2 : TaskTree.Args) (task : Task) :
  (TaskTree.include_closed args1 = Some true ->
   TaskTree.include_closed args2 = Some true) ->
  TaskTree.skip args1 task = false -> TaskTree.skip args2 task = false.
Proof.
  unfold TaskTree.skip, TaskTree.includeClosed. intros Himp.
  destruct (decide (TaskTree.include_closed args1 = Some true)) as [H1|H1].
  - by rewrite (bool_decide_eq_true_2 _ (Himp H1)).
  - rewrite (bool_decide_eq_false_2 _ H1). cbn. intros ->.
    by rewrite andb_false_r.
Qed.

(** X5.  Asking for more never hides a task.  In each of the three views,
    a task shown under some depth bound is still shown under every larger
    bound; in the summary and the task-tree view, a task shown without
    [include_closed] is still shown with it.  The other options (compact,
    ultra-compact, notes) play no part. *)
Theorem asking_for_more_hides_nothing (sargs1 sargs2 : Summary.Args)
    (targs1 targs2 : TaskTree.Args) (pargs1 pargs2 : Paginated.Args)
    (allTasks : list Task) (x : Z) :
  (Summary.maxDepth sargs1 <= Summary.maxDepth sargs2 ->
   (Summary.include_closed sargs1 = Some true ->
    Summary.include_closed sargs2 = Some true) ->
   x ∈ task_ids (Summary.run sargs1 allTasks) ->
   x ∈ task_ids (Summary.run sargs2 allTasks))
  /\ (TaskTree.task_id targs1 = TaskTree.task_id targs2 ->
      TaskTree.maxDepth targs1 <= TaskTree.maxDepth targs2 ->
      (TaskTree.include_closed targs1 = Some true ->
       TaskTree.include_closed targs2 = Some true) ->
      x ∈ returned_ids (TaskTree.run targs1 allTasks) ->
      x ∈ returned_ids (TaskTree.run targs2 allTasks))
  /\ (Paginated.page pargs1 = Paginated.page pargs2 ->
      Paginated.maxDepth pargs1 <= Paginated.maxDepth pargs2 ->
      x ∈ returned_ids (Paginated.run pargs1 allTasks) ->
      x ∈ returned_ids (Paginated.run pargs2 allTasks)).
Proof.
  split; [|split].
  - intros Hd Hc. rewrite !summary_run_ids, !elem_of_concat.
    intros (ids & Hx & (top & -> & Htop)%list_elem_of_fmap).
    eexists. split;
      [|by apply (list_elem_of_fmap_2
                    (fun task => task_ids (Summary.formatTask sargs2 allTasks
                                             (id task) 0)))].
    rewrite summary_formatTask_walk, walk_ids_linked in Hx |- *
      by auto using summary_own_ids, summary_elided_ids.
    eapply linked_mono; [done| |done]. intros task. by apply summary_skip_mono.
  - intros Hid Hd Hc. unfold TaskTree.run. rewrite <- Hid.
    destruct (taskMap allTasks !! TaskTree.task_id targs1); [|done].
    cbn [returned_ids app task_ids omap list_omap].
    rewrite !tree_formatTask_walk, !walk_ids_linked
      by auto using tree_own_ids, tree_elided_ids.
    apply linked_mono; [done|]. intros task. by apply tree_skip_mono.
  - intros Hp Hd. unfold Paginated.run, Paginated.pageNum. rewrite <- Hp.
    destruct (_ || _); [done|]. cbn [returned_ids].
    rewrite !paginated_body_ids, !elem_of_concat.
    unfold Paginated.pageTasks, Paginated.pageNum. rewrite <- Hp.
    intros (ids & Hx & (top & -> & Htop)%list_elem_of_fmap).
    eexists. split;
      [|by apply (list_elem_of_fmap_2
                    (fun task => task_ids (Paginated.formatTask pargs2 allTasks
                                             (id task) 0)))].
    rewrite paginated_formatTask_walk, walk_ids_linked in Hx |- *
      by auto using paginated_own_ids, paginated_elided_ids.
    by eapply linked_mono.
Qed.

(** X6.  The display mode changes the text of the lines, not which task
    lines there are nor their order.  Two summaries with the same depth
    bound in force and the same closed-task filter print the same ids in
    the same order, whatever [compact] says; so do two task-tree calls for
    the same task, whatever [compact] and [with_notes] say, and two calls
    for the same page, whatever [compact] and [ultra_compact] say. *)
Theorem mode_keeps_task_lines (sargs1 sargs2 : Summary.Args)
    (targs1 targs2 : TaskTree.Args) (pargs1 pargs2 : Paginated.Args)
    (allTasks : list Task) :
  (Summary.maxDepth sargs1 = Summary.maxDepth sargs2 ->
   Summary.includeClosed sargs1 = Summary.includeClosed sargs2 ->
   task_ids (Summary.run sargs1 allTasks) =
   task_ids (Summary.run sargs2 allTasks))
  /\ (TaskTree.task_id targs1 = TaskTree.task_id targs2 ->
      TaskTree.maxDepth targs1 = TaskTree.maxDepth targs2 ->
      TaskTree.includeClosed targs1 = TaskTree.includeClosed targs2 ->
      returned_ids (TaskTree.run targs1 allTasks) =
      returned_ids (TaskTree.run targs2 allTasks))
  /\ (Paginated.page pargs1 = Paginated.page pargs2 ->
      Paginated.maxDepth pargs1 = Paginated.maxDepth pargs2 ->
      returned_ids (Paginated.run pargs1 allTasks) =
      returned_ids (Paginated.run pargs2 allTasks)).
Proof.
  split; [|split].
  - intros Hd Hc. rewrite !summary_run_ids. f_equal.
    apply list_fmap_ext. intros _ task _.
    rewrite !summary_formatTask_walk, Hd.
    apply walk_ids_mode; auto using summary_own_ids, summary_elided_ids.
    intros t. unfold Summary.skip. by rewrite Hc.
  - intros Hid Hd Hc. unfold TaskTree.run. rewrite <- Hid.
    destruct (taskMap allTasks !! TaskTree.task_id targs1); [|done].
    cbn [returned_ids app task_ids omap list_omap].
    rewrite !tree_formatTask_walk, Hd.
    apply walk_ids_mode; auto using tree_own_ids, tree_elided_ids.
    intros task. unfold TaskTree.skip. by rewrite Hc.
  - intros Hp Hd. unfold Paginated.run, Paginated.pageNum. rewrite <- Hp.
    destruct (_ || _); [done|]. cbn [returned_ids].
    rewrite !paginated_body_ids.
    unfold Paginated.pageTasks, Paginated.pageNum. rewrite <- Hp.
    f_equal. apply list_fmap_ext. intros _ task _.
    rewrite !paginated_formatTask_walk, Hd.
    apply walk_ids_mode; auto using paginated_own_ids, paginated_elided_ids.
Qed.

(** ** Depth bounds at the edges *)

(** A top-level record of the collection is found in the map, under a
    record with the same id. *)
Lemma topLevel_lookup (allTasks : list Task) (top : Task) :
  top ∈ topLevel allTasks ->
  exists record, taskMap allTasks !! id top = Some record /\ id record = id top.
Proof.
  intros [_ Hin]%list_elem_of_filter.
  destruct (taskMap_lookup_is_Some _ _ Hin) as [record Hrecord].
  exists record. split; [done|]. by apply taskMap_lookup_Some in Hrecord as [? _].
Qed.

Lemma summary_maxDepth_preview (args : Summary.Args) :
  Summary.preview args = Some true -> Summary.maxDepth args = 1.
Proof.
  intros H. unfold Summary.maxDepth, Summary.isPreview.
  by rewrite bool_decide_eq_true_2.
Qed.

(** X7.  The preview of the summary does not stop at the top level: with
    its depth bound 1 it shows every top-level task that is present and not
    filtered out, and below each of them its direct children that are
    present and not filtered out; nothing deeper is shown. *)
Theorem preview_shows_two_levels (args : Summary.Args) (allTasks : list Task)
    (x : Z) :
  Summary.preview args = Some true ->
  (x ∈ task_ids (Summary.run args allTasks) <->
   exists top record,
     top ∈ topLevel allTasks /\
     taskMap allTasks !! id top = Some record /\
     Summary.skip args record = false /\
     (x = id top \/
      exists child,
        x ∈ subtasks record /\ taskMap allTasks !! x = Some child /\
        Summary.skip args child = false)).
Proof.
  intros Hpreview. pose proof (summary_maxDepth_preview _ Hpreview) as Hd.
  rewrite summary_run_ids, elem_of_concat. split.
  - intros (ids & Hx & (top & -> & Htop)%list_elem_of_fmap).
    rewrite summary_formatTask_walk, walk_ids_linked in Hx
      by auto using summary_own_ids, summary_elided_ids.
    inversion Hx as [? ? record Hm Hs|? ? record c ? Hm Hs _ Hc Hbelow]; subst.
    + exists top, record. repeat split; [done..|]. left.
      by apply taskMap_lookup_Some in Hm as [? _].
    + exists top, record. repeat split; [done..|]. right.
      inversion Hbelow as [? ? child Hmc Hsc|? ? ? ? ? _ _ Hlt]; subst;
        [|rewrite Hd in Hlt; lia].
      apply taskMap_lookup_Some in Hmc as Hchild. destruct Hchild as [Hid _].
      exists child. by rewrite Hid.
  - intros (top & record & Htop & Hm & Hs & Hx).
    eexists. split;
      [|by apply (list_elem_of_fmap_2
                    (fun task => task_ids (Summary.formatTask args allTasks
                                             (id task) 0)))].
    rewrite summary_formatTask_walk, walk_ids_linked
      by auto using summary_own_ids, summary_elided_ids.
    destruct Hx as [->|(child & Hc & Hmc & Hsc)].
    + pose proof (linked_here _ (Summary.maxDepth args) _ _ 0%nat _ Hm Hs) as Hl.
      destruct (taskMap_lookup_Some _ _ _ Hm) as [Hid _]. by rewrite Hid in Hl.
    + eapply linked_below; [done|done|rewrite Hd; lia|done|].
      pose proof (linked_here _ (Summary.maxDepth args) _ _ 1%nat _ Hmc Hsc) as Hl.
      destruct (taskMap_lookup_Some _ _ _ Hmc) as [Hid _]. by rewrite Hid in Hl.
Qed.

Lemma preview_witness :
  11 ∈ task_ids (Summary.run {| Summary.checklist_id := 7;
                               Summary.max_depth := Some 99;
                               Summary.include_closed := None;
                               Summary.compact := None;
                               Summary.preview := Some true |} sample).
Proof.
  refine (proj2 (preview_shows_two_levels
                   {| Summary.checklist_id := 7; Summary.max_depth := Some 99;
                      Summary.include_closed := None; Summary.compact := None;
                      Summary.preview := Some true |} sample 11 eq_refl) _).
  exists t1, t1. split; [by left|]. split; [done|]. split; [done|]. right.
  exists t11. split; [by left|]. by split.
Defined.

Lemma concat_singletons {A B} (f : A -> B) (l : list A) :
  concat ((fun a => [f a]) <$> l) = f <$> l.
Proof. induction l as [|a l IH]; [done|]. cbn. by rewrite IH. Qed.

(** X8.  With a depth bound of 0 or less, the summary that includes closed
    tasks shows the top-level tasks and nothing else, in the order of the
    collection; a negative bound acts like 0. *)
Theorem summary_nonpositive_bound (args : Summary.Args) (allTasks : list Task) :
  Summary.maxDepth args <= 0 ->
  Summary.include_closed args = Some true ->
  task_ids (Summary.run args allTasks) = id <$> topLevel allTasks.
Proof.
  intros Hd Hc. rewrite summary_run_ids.
  rewrite <- (concat_singletons id (topLevel allTasks)). f_equal.
  apply list_fmap_ext. intros _ top Htop%list_elem_of_lookup_2.
  destruct (topLevel_lookup _ _ Htop) as (record & Hm & Hid).
  rewrite summary_formatTask_walk, walk_ids_unfold
    by auto using summary_own_ids, summary_elided_ids.
  rewrite Hm, summary_skip_none, Hid by done.
  by destruct (Z.ltb_spec (Z.of_nat 0) (Summary.maxDepth args)); [lia|].
Qed.

Lemma summary_nonpositive_bound_witness :
  task_ids (Summary.run (summary_args (Some (-3)) (Some true) None) sample)
  = [1; 2].
Proof.
  exact (summary_nonpositive_bound (summary_args (Some (-3)) (Some true) None)
           sample ltac:(by vm_compute) eq_refl).
Defined.

Lemma take_one_drop {A} (l : list A) (k : nat) (a : A) :
  l !! k = Some a -> take 1 (drop k l) = [a].
Proof.
  revert k. induction l as [|b l IH]; intros [|k]; cbn; try done.
  - by intros [= ->].
  - apply IH.
Qed.

(** X9.  Every page of the paginated view opens with its own top-level
    task: for the top-level task at position [k] of the collection, page
    [k + 1] is returned and its first task line is that task's. *)
Theorem page_opens_with_its_task (args : Paginated.Args) (allTasks : list Task)
    (k : nat) (top : Task) :
  topLevel allTasks !! k = Some top ->
  exists out rest,
    Paginated.run (with_page args (Z.of_nat k + 1)) allTasks = Returned out /\
    task_ids out = id top :: rest.
Proof.
  intros Hk. pose proof (lookup_lt_Some _ _ _ Hk) as Hlt.
  rewrite paginated_run_inside
    by (cbn [Paginated.page with_page]; rewrite paginated_totalPages_length; lia).
  eexists. rewrite paginated_body_ids, paginated_pageTasks_slice by done.
  rewrite (take_one_drop _ _ _ Hk). cbn [fmap list_fmap concat].
  destruct (topLevel_lookup allTasks top) as (record & Hm & Hid);
    [by eapply list_elem_of_lookup_2|].
  rewrite paginated_formatTask_walk, walk_ids_unfold
    by auto using paginated_own_ids, paginated_elided_ids.
  rewrite Hm, Hid. cbn [Paginated.skip].
  destruct (_ <? _); eexists; split; try done; by rewrite app_nil_r.
Qed.

Lemma page_opens_witness :
  exists out rest,
    Paginated.run (with_page (page_args 5 None None) 2) sample = Returned out /\
    task_ids out = 2 :: rest.
Proof. exact (page_opens_with_its_task (page_args 5 None None) sample 1 t2 eq_refl). Defined.

(** ** The depth the stats view measures *)

Lemma mapM_fmap_option {A B C} (h : A -> option B) (g : B -> C) (l : list A) :
  mapM (fun a => g <$> h a) l = (fun bs => g <$> bs) <$> mapM h l.
Proof.
  induction l as [|a l IH]; [done|].
  cbn. rewrite IH. destruct (h a); [|done]. cbn. by destruct (mapM h l).
Qed.

Lemma getDepth_fuel_shift (allTasks : list Task) (fuel : nat) (taskId : Z)
    (currentDepth : nat) :
  Stats.getDepth_fuel allTasks fuel taskId currentDepth =
  (fun v => (currentDepth + v)%nat) <$> Stats.getDepth_fuel allTasks fuel taskId 0.
Proof.
  revert taskId currentDepth.
  induction fuel as [|fuel IH]; intros taskId d; [done|].
  cbn [Stats.getDepth_fuel].
  destruct (taskMap allTasks !! taskId) as [task|]; [|cbn; f_equal; lia].
  destruct (has_subtasks task) eqn:Hk; cbn [negb]; [|cbn; f_equal; lia].
  rewrite (mapM_ext _ _ _ (fun c => IH c (S d))),
    (mapM_ext _ (fun c => (fun v => (1 + v)%nat)
                            <$> Stats.getDepth_fuel allTasks fuel c 0)
       _ (fun c => IH c 1%nat)).
  rewrite !mapM_fmap_option.
  destruct (mapM _ (subtasks task)) as [vs|] eqn:Hvs; [|done].
  apply length_mapM in Hvs.
  cbn [fmap option_fmap option_map mbind option_bind].
  unfold has_subtasks, subtasks in *.
  destruct (tasks task) as [[|c cs]|]; try done.
  destruct vs as [|v vs]; [done|].
  rewrite (max_list_fmap_add (S d) (fun x => x) v vs),
    (max_list_fmap_add 1 (fun x => x) v vs).
  f_equal. lia.
Qed.

Lemma getDepth_ge (allTasks : list Task) (fuel : nat) (taskId : Z)
    (currentDepth v : nat) :
  Stats.getDepth_fuel allTasks fuel taskId currentDepth = Some v ->
  (currentDepth <= v)%nat.
Proof.
  rewrite getDepth_fuel_shift.
  destruct (Stats.getDepth_fuel allTasks fuel taskId 0); [|done].
  intros [= <-]. lia.
Qed.

(** X10.  The start depth only shifts the result of [getDepth]: started at
    depth [d] it returns [d] plus what it returns started at depth 0, with
    the same fuel, and it fails to return in the same cases.  A result is
    therefore never below the start depth. *)
Theorem getDepth_additive (allTasks : list Task) (fuel : nat) (taskId : Z)
    (currentDepth : nat) :
  Stats.getDepth_fuel allTasks fuel taskId currentDepth =
    (fun v => (currentDepth + v)%nat)
    <$> Stats.getDepth_fuel allTasks fuel taskId 0
  /\ (forall v,
        Stats.getDepth_fuel allTasks fuel taskId currentDepth = Some v ->
        (currentDepth <= v)%nat).
Proof. split; [apply getDepth_fuel_shift|intros v; apply getDepth_ge]. Qed.

Lemma markers_concat_nil (outs : list (list Line)) :
  Forall (fun out => markers out = []) outs -> markers (concat outs) = [].
Proof.
  induction 1 as [|out outs Hout _ IH]; [done|].
  cbn [concat]. by rewrite markers_app, Hout, IH.
Qed.

(** A walk bounded at least by the depth [getDepth] measures from its
    start cuts nothing off. *)
Lemma walk_no_markers (allTasks : list Task) (maxDepth : Z)
    (skip : Task -> bool) (own elided : Task -> nat -> list Line)
    (fuel : nat) (taskId : Z) (depth v : nat) :
  (forall task d, markers (own task d) = []) ->
  Stats.getDepth_fuel allTasks fuel taskId depth = Some v ->
  Z.of_nat v <= maxDepth ->
  markers (walk (taskMap allTasks) maxDepth skip own elided taskId depth) = [].
Proof.
  intros Hown. revert taskId depth v.
  induction fuel as [|fuel IH]; intros taskId d v Hv Hle; [done|].
  cbn [Stats.getDepth_fuel] in Hv. rewrite walk_unfold.
  destruct (taskMap allTasks !! taskId) as [task|]; [|done].
  destruct (skip task); [done|].
  destruct (has_subtasks task) eqn:Hk; cbn [negb] in Hv;
    [|by rewrite andb_false_r].
  destruct (mapM _ (subtasks task)) as [vs|] eqn:Hvs; [|done].
  injection Hv as <-. apply mapM_Some in Hvs.
  assert (Hkids : forall c, c ∈ subtasks task ->
            exists vc, Stats.getDepth_fuel allTasks fuel c (S d) = Some vc /\
                       (vc <= max_list vs)%nat).
  { intros c (i & Hi)%list_elem_of_lookup_1.
    destruct (Forall2_lookup_l _ _ _ _ _ Hvs Hi) as (vc & Hvc & Hc).
    exists vc. split; [done|].
    by eapply max_list_elem_of_le, list_elem_of_lookup_2. }
  assert (Z.of_nat d < maxDepth).
  { unfold has_subtasks, subtasks in *.
    destruct (tasks task) as [[|c cs]|]; try done.
    destruct (Hkids c) as (vc & Hvc%getDepth_ge & ?); [by left|]. lia. }
  destruct (Z.ltb_spec (Z.of_nat d) maxDepth); [|lia]. cbn [andb].
  rewrite markers_app, Hown. apply markers_concat_nil, Forall_fmap, Forall_forall.
  intros c Hc. destruct (Hkids c Hc) as (vc & Hvc & ?).
  eapply IH; [done|lia].
Qed.

Lemma summary_own_markers (args : Summary.Args) (task : Task) (depth : nat) :
  markers (Summary.own args task depth) = [].
Proof.
  unfold Summary.own, Summary.noteLines.
  destruct (Summary.compactMode args); [done|].
  rewrite markers_app. destruct (has_notes task); [|done].
  cbn. by induction (notes_of task).
Qed.

Lemma paginated_own_markers (args : Paginated.Args) (task : Task) (depth : nat) :
  markers (Paginated.own args task depth) = [].
Proof.
  unfold Paginated.own.
  by destruct (Paginated.ultraCompact args), (Paginated.compactMode args).
Qed.

(** X11.  The maximum depth the stats view reports is a depth bound that
    shows everything: when the [getDepth] calls of the stats view return
    the depths [depths], a summary, or any page, rendered with a bound of
    at least [Math.max(...depths, 0)] contains no elision marker. *)
Theorem reported_depth_elides_nothing (sargs : Summary.Args)
    (pargs : Paginated.Args) (allTasks : list Task) (fuel : nat)
    (depths : list nat) :
  mapM (fun task => Stats.getDepth_fuel allTasks fuel (id task) 0)
       (Stats.topLevelTasks allTasks) = Some depths ->
  (Z.of_nat (max_list depths) <= Summary.maxDepth sargs ->
   markers (Summary.run sargs allTasks) = [])
  /\ (Z.of_nat (max_list depths) <= Paginated.maxDepth pargs ->
      forall out, Paginated.run pargs allTasks = Returned out ->
                  markers out = []).
Proof.
  intros Hdepths%mapM_Some.
  assert (Hroot : forall top, top ∈ topLevel allTasks ->
            exists v, Stats.getDepth_fuel allTasks fuel (id top) 0 = Some v /\
                      (v <= max_list depths)%nat).
  { intros top (i & Hi)%list_elem_of_lookup_1.
    destruct (Forall2_lookup_l _ _ _ _ _ Hdepths Hi) as (v & Hv & Htop).
    exists v. split; [done|].
    by eapply max_list_elem_of_le, list_elem_of_lookup_2. }
  split.
  - intros Hle. unfold Summary.run, Summary.header, Summary.footer, Summary.body.
    rewrite !markers_app.
    rewrite (markers_concat_nil
               ((fun task => Summary.formatTask sargs allTasks (id task) 0)
                <$> topLevel allTasks)).
    { by destruct (Summary.isPreview sargs), (Summary.compactMode sargs). }
    apply Forall_fmap, Forall_forall. intros top Htop.
    destruct (Hroot top Htop) as (v & Hv & ?). unfold compose. cbn beta.
    rewrite summary_formatTask_walk.
    eapply walk_no_markers; [apply summary_own_markers|done|lia].
  - intros Hle out. unfold Paginated.run. destruct (_ || _); [done|].
    intros Hout.
    replace out with (Paginated.header pargs allTasks ++
                      Paginated.body pargs allTasks ++
                      Paginated.footer pargs allTasks) by congruence.
    rewrite !markers_app.
    assert (markers (Paginated.header pargs allTasks) = []) as ->
      by (unfold Paginated.header; by repeat case_match).
    assert (markers (Paginated.footer pargs allTasks) = []) as ->
      by (unfold Paginated.footer; by repeat case_match).
    rewrite app_nil_r. cbn [app]. unfold Paginated.body.
    apply markers_concat_nil, Forall_fmap, Forall_forall. intros top Htop.
    unfold compose. cbn beta.
    assert (top ∈ topLevel allTasks) as Htop'.
    { unfold Paginated.pageTasks, Paginated.slice, Paginated.topLevelTasks in Htop.
      by apply subseteq_take, subseteq_drop in Htop. }
    destruct (Hroot top Htop') as (v & Hv & ?).
    rewrite markers_app, app_nil_r, paginated_formatTask_walk.
    eapply walk_no_markers; [apply paginated_own_markers|done|lia].
Qed.

Lemma reported_depth_witness :
  markers (Summary.run (summary_args (Some 2) (Some true) None) sample) = [].
Proof.
  exact (proj1 (reported_depth_elides_nothing
                  (summary_args (Some 2) (Some true) None)
                  (page_args 1 None None) sample 5 [2%nat; 0%nat] eq_refl)
               ltac:(by vm_compute)).
Defined.

(** ** Pages of a forest *)

(** Walks that filter nothing, started at each top-level task of the
    encoding of a forest that fits under the depth bound, show every record
    once between them. *)
Lemma forest_walk_ids (maxDepth : Z) (skip : Task -> bool)
    (own elided : Task -> nat -> list Line) (allTasks : list Task)
    (forest : list Tree) :
  (forall task, skip task = false) ->
  (forall task depth, task_ids (own task depth) = [id task]) ->
  (forall task depth, task_ids (elided task depth) = []) ->
  encodes_forest allTasks forest ->
  Forall (fun t => Z.of_nat (height t) <= maxDepth) forest ->
  concat ((fun task =>
             task_ids (walk (taskMap allTasks) maxDepth skip own elided
                         (id task) 0))
          <$> topLevel allTasks)
  ≡ₚ id <$> allTasks.
Proof.
  intros Hskip Hown Helided [Hrec Hdup Hnz Hroots] Hh.
  rewrite concat_mjoin.
  assert (Htop : topLevel allTasks ≡ₚ root <$> forest).
  { unfold topLevel. rewrite Hrec. apply reflexive_eq, forest_topLevel; [done|].
    by rewrite <- Hrec. }
  rewrite Htop, <- concat_mjoin, <- list_fmap_compose.
  transitivity (id <$> concat (flatten <$> forest)); [|by rewrite <- Hrec].
  rewrite fmap_concat, <- list_fmap_compose.
  apply reflexive_eq. f_equal. apply list_fmap_ext.
  intros _ t Ht%list_elem_of_lookup_2. unfold compose.
  pose proof (proj1 (Forall_forall _ _) Hroots t Ht) as Henc.
  pose proof (proj1 (Forall_forall _ _) Hh t Ht) as Hht.
  eapply walk_ids_tree; [done|done|done|exact Henc| |].
  - intros task Htask. apply taskMap_lookup_NoDup; [done|].
    rewrite Hrec. apply elem_of_concat. exists (flatten t).
    split; [done|]. by apply list_elem_of_fmap_2.
  - cbn in Hht. lia.
Qed.

(** X12.  On the flat encoding of a forest no tree of which is higher than
    the depth bound, the pages [1..totalPages] of the paginated view split
    the checklist: read one after the other they show every record exactly
    once, so no task appears on two pages and none is left out. *)
Theorem pages_split_a_forest (args : Paginated.Args) (allTasks : list Task)
    (forest : list Tree) :
  encodes_forest allTasks forest ->
  Forall (fun t => Z.of_nat (height t) <= Paginated.maxDepth args) forest ->
  concat (page_ids args allTasks <$> pages args allTasks) ≡ₚ id <$> allTasks
  /\ NoDup (concat (page_ids args allTasks <$> pages args allTasks)).
Proof.
  intros Hforest Hh.
  assert (Hids : concat (page_ids args allTasks <$> pages args allTasks)
                 ≡ₚ id <$> allTasks).
  { rewrite pages_concat.
    rewrite (list_fmap_ext _
               (fun task => task_ids (walk (taskMap allTasks)
                                        (Paginated.maxDepth args) Paginated.skip
                                        (Paginated.own args)
                                        (Paginated.elided args) (id task) 0))
               (topLevel allTasks))
      by (intros; by rewrite paginated_formatTask_walk).
    apply (forest_walk_ids _ _ _ _ _ forest);
      auto using paginated_own_ids, paginated_elided_ids. }
  split; [done|]. rewrite Hids. by destruct Hforest.
Qed.

Lemma pages_split_witness :
  concat (page_ids (page_args 1 None None) sample
          <$> pages (page_args 1 None None) sample)
  ≡ₚ id <$> sample
  /\ NoDup (concat (page_ids (page_args 1 None None) sample
                    <$> pages (page_args 1 None None) sample)).
Proof.
  apply (pages_split_a_forest (page_args 1 None None) sample sample_forest).
  - exact sample_encodes_forest.
  - repeat constructor; by vm_compute.
Defined.

(** ** The closed fraction *)

(** X13.  On a collection that is not empty the closed fraction of the
    stats view is a finite number between 0 and 100: the division yields
    neither [NaN] nor [Infinity]. *)
Theorem closed_fraction_finite (toFixed1_finite : Q -> string)
    (allTasks : list Task) :
  allTasks <> [] ->
  exists q : Q,
    Stats.js_mul (Stats.js_div (length (Stats.closedTasks allTasks))
                               (length allTasks)) 100 = Stats.JFinite q
    /\ (0 <= q)%Q /\ (q <= 100)%Q
    /\ Stats.closedPercent toFixed1_finite allTasks = toFixed1_finite q.
Proof.
  intros Hne. unfold Stats.closedPercent.
  pose proof (length_filter (fun task => status task = 1) allTasks) as Hle.
  fold (Stats.closedTasks allTasks) in Hle.
  destruct allTasks as [|task rest]; [done|].
  set (c := length (Stats.closedTasks (task :: rest))) in *.
  cbn [length] in *. set (n := length rest) in *.
  eexists. split; [done|]. split; [|split; [|done]].
  - unfold Qle, Qmult, inject_Z. cbn [Qnum Qden]. lia.
  - unfold Qle, Qmult, inject_Z. cbn [Qnum Qden].
    rewrite Pos.mul_1_r.
    replace (Z.pos (Pos.of_nat (S n))) with (Z.of_nat (S n))
      by (by rewrite <- Pos.of_nat_succ, Zpos_P_of_succ_nat, Nat2Z.inj_succ).
    lia.
Qed.

Lemma closed_fraction_witness :
  exists q : Q,
    Stats.js_mul (Stats.js_div (length (Stats.closedTasks sample))
                               (length sample)) 100 = Stats.JFinite q
    /\ (0 <= q)%Q /\ (q <= 100)%Q
    /\ Stats.closedPercent (fun _ => "20.0") sample = "20.0".
Proof. exact (closed_fraction_finite (fun _ => "20.0") sample ltac:(done)). Defined.

(** * The tag monitor *)

Import (notations) Stdlib.Strings.Ascii.
#[local] Arguments String.append : simpl nomatch.

Lemma str_app_assoc (a b c : string) : (a +:+ b) +:+ c = a +:+ b +:+ c.
Proof. induction a as [|x a IH]; [done|]. cbn. by f_equal. Qed.

Lemma prefix_split (p s : string) :
  String.prefix p s = true -> s = p +:+ CcTags.skipn (String.length p) s.
Proof.
  revert s. induction p as [|x p IH]; intros s; [done|].
  destruct s as [|y s]; [done|]. cbn.
  destruct (Ascii.ascii_dec x y) as [->|]; [|done].
  intros Hp. f_equal. by apply IH.
Qed.

Lemma prefix_app (p r : string) : String.prefix p (p +:+ r) = true.
Proof.
  induction p as [|x p IH]; [by destruct r|].
  cbn. by destruct (Ascii.ascii_dec x x).
Qed.

Lemma includes_prefix (s p : string) :
  String.prefix p s = true -> CcTags.includes s p = true.
Proof. intros Hp. destruct s; cbn [CcTags.includes]; by rewrite Hp. Qed.

Lemma includes_intro (a p b : string) : CcTags.includes (a +:+ p +:+ b) p = true.
Proof.
  induction a as [|x a IH].
  - apply includes_prefix, (prefix_app p b).
  - cbn [String.append CcTags.includes]. rewrite IH. apply orb_true_r.
Qed.

(** [replace] rewrites an occurrence that [includes] finds, and leaves the
    text before and after it alone. *)
Lemma includes_replace (s p r : string) :
  CcTags.includes s p = true ->
  exists a b, s = a +:+ p +:+ b /\ CcTags.replace s p r = a +:+ r +:+ b.
Proof.
  induction s as [|x s IH].
  - cbn. rewrite orb_false_r. intros Hp. exists "", "".
    rewrite Hp. destruct p; [|done]. by destruct r.
  - cbn [CcTags.includes CcTags.replace].
    destruct (String.prefix p (String x s)) eqn:Hp.
    + intros _. exists "", (CcTags.skipn (String.length p) (String x s)).
      split; [by apply prefix_split|done].
    + cbn [orb]. intros (a & b & -> & ->)%IH. by exists (String x a), b.
Qed.

Lemma trimStart_keeps (a r : string) (c : Ascii.ascii) :
  CcTags.is_white c = false ->
  exists a', CcTags.trimStart (a +:+ String c r) = a' +:+ String c r.
Proof.
  intros Hc. induction a as [|x a [a' IH]].
  - exists "". cbn. by rewrite Hc.
  - cbn. destruct (CcTags.is_white x); [by exists a'|].
    by exists (String x a).
Qed.

Lemma trimEnd_keeps (u b : string) (c : Ascii.ascii) :
  CcTags.is_white c = false ->
  exists b', CcTags.trimEnd (u +:+ String c b) = u +:+ String c b'.
Proof.
  intros Hc. induction u as [|x u [b' IH]].
  - cbn. rewrite Hc. destruct (CcTags.trimEnd b); by eexists.
  - exists b'. cbn. rewrite IH. by destruct u.
Qed.

(** X14.  The tag text the monitor sends back for a task it has handled
    still passes the monitor's own selection test: it is not empty and it
    contains [cc], now as part of [cc-svar].  The rewriting keeps whatever
    stood before the first [cc] and after it, up to the white space
    trimmed at the two ends. *)
Theorem retagged_still_selected (allTasks : list Task) (task : Task) :
  task ∈ CcTags.ccTasks allTasks ->
  CcTags.newTags task <> ""
  /\ CcTags.includes (CcTags.newTags task) "cc" = true
  /\ CcTags.includes (CcTags.newTags task) "cc-svar" = true.
Proof.
  intros [Hcc _]%list_elem_of_filter.
  apply Is_true_true in Hcc. unfold CcTags.isCcTask in Hcc.
  apply andb_true_iff in Hcc as [_ Hinc].
  unfold CcTags.newTags, CcTags.trim.
  destruct (includes_replace _ _ "cc-svar" Hinc) as (a & b & _ & ->).
  destruct (trimStart_keeps a ("c-svar" +:+ b) "c"%char eq_refl) as [a' Ha].
  change (a +:+ "cc-svar" +:+ b) with (a +:+ String "c" ("c-svar" +:+ b)).
  rewrite Ha.
  destruct (trimEnd_keeps (a' +:+ "cc-sva") b "r"%char eq_refl) as [b' Hb].
  replace (a' +:+ String "c" ("c-svar" +:+ b))
    with ((a' +:+ "cc-sva") +:+ String "r" b) by by rewrite str_app_assoc.
  rewrite Hb, str_app_assoc.
  change ("cc-sva" +:+ String "r" b') with ("cc-svar" +:+ b').
  split; [by destruct a'|]. split; [|apply includes_intro].
  change ("cc-svar" +:+ b') with ("cc" +:+ ("-svar" +:+ b')).
  apply includes_intro.
Qed.

Lemma retagged_witness :
  CcTags.newTags tagged <> ""
  /\ CcTags.includes (CcTags.newTags tagged) "cc" = true
  /\ CcTags.includes (CcTags.newTags tagged) "cc-svar" = true.
Proof.
  apply (retagged_still_selected [t1; tagged] tagged).
  change (tagged ∈ [tagged]). by left.
Defined.

(** * Sizes and depths *)

Lemma str_length_app (a b : string) :
  String.length (a +:+ b) = (String.length a + String.length b)%nat.
Proof. induction a as [|x a IH]; [done|]. cbn. by rewrite IH. Qed.

Lemma str_length_substring (n : nat) (s : string) :
  String.length (String.substring 0 n s) = Nat.min n (String.length s).
Proof.
  revert s. induction n as [|n IH]; intros [|x s]; cbn; try done.
  by rewrite IH.
Qed.

Lemma str_length_repeat (s : string) (n : nat) :
  String.length (repeat_str s n) = (n * String.length s)%nat.
Proof. induction n as [|n IH]; [done|]. cbn. by rewrite str_length_app, IH. Qed.

Lemma truncate_length (n : nat) (s : string) :
  (String.length (truncate n s) <= n + 3)%nat.
Proof.
  unfold truncate. destruct (Nat.ltb_spec n (String.length s)); [|lia].
  rewrite str_length_app, str_length_substring. cbn. lia.
Qed.

(** X15.  The truncating modes bound the size of a line whatever the
    length of the content: an ultra-compact line of the paginated view has
    at most 46 characters besides its indentation and id, a compact line of
    the task-tree view at most 56, and a task of the task-tree view
    contributes at most three note lines however many notes it has.  Text
    no longer than the limit is printed unchanged. *)
Theorem truncating_modes_bound_lines (pargs : Paginated.Args)
    (targs : TaskTree.Args) (task : Task) (depth : nat) :
  (String.length (line_text (Paginated.ultraLine task depth))
   <= 2 * depth + String.length (pretty (id task)) + 46)%nat
  /\ (String.length (line_text (TaskTree.compactLine task depth))
      <= 2 * depth + String.length (pretty (id task)) + 56)%nat
  /\ (length (TaskTree.noteLines targs task depth) <= 3)%nat
  /\ ((String.length (content task) <= 40)%nat ->
      line_text (Paginated.ultraLine task depth) =
      repeat_str "  " depth +:+ pretty (id task) +:+ ": " +:+ content task
      +:+ NL).
Proof.
  split; [|split; [|split]].
  - unfold Paginated.ultraLine, line_text.
    rewrite !str_length_app, str_length_repeat.
    pose proof (truncate_length 40 (content task)). cbn. lia.
  - unfold TaskTree.compactLine, line_text.
    rewrite !str_length_app, str_length_repeat.
    pose proof (truncate_length 50 (content task)). cbn. lia.
  - unfold TaskTree.noteLines.
    destruct (TaskTree.withNotes targs && has_notes task); [|cbn; lia].
    rewrite length_app, length_fmap, length_take.
    destruct (2 <? length (notes_of task))%nat; cbn [length]; lia.
  - intros Hshort. unfold Paginated.ultraLine, line_text, truncate.
    by destruct (Nat.ltb_spec 40 (String.length (content task))); [lia|].
Qed.

Lemma mapM_Permutation {A B} (f : A -> option B) (l l' : list A) (k : list B) :
  l ≡ₚ l' -> mapM f l = Some k -> exists k', mapM f l' = Some k' /\ k ≡ₚ k'.
Proof.
  intros Hperm. revert k.
  induction Hperm as [|a l l' _ IH|a b l|l1 l2 l3 _ IH1 _ IH2]; intros k.
  - intros [= <-]. by exists [].
  - cbn. destruct (f a) as [v|]; [|done]. cbn.
    destruct (mapM f l) as [vs|] eqn:Hvs; [|done]. intros [= <-].
    destruct (IH vs eq_refl) as (vs' & -> & Hp). exists (v :: vs').
    split; [done|]. by constructor.
  - cbn. destruct (f a) as [va|], (f b) as [vb|]; try done; cbn.
    destruct (mapM f l) as [vs|]; [|done]. intros [= <-].
    exists (va :: vb :: vs). split; [done|]. apply Permutation_swap.
  - intros Hk. destruct (IH1 k Hk) as (k2 & Hk2 & Hp1).
    destruct (IH2 k2 Hk2) as (k3 & Hk3 & Hp2).
    exists k3. split; [done|]. by etrans.
Qed.

Lemma mapM_fmap_arg {A B C} (f : B -> option C) (g : A -> B) (l : list A) :
  mapM f (g <$> l) = mapM (fun a => f (g a)) l.
Proof. induction l as [|a l IH]; [done|]. cbn. by rewrite IH. Qed.

(** X16.  On the flat encoding of a forest the stats view returns, and the
    depths it measures at the top-level tasks are the heights of the trees:
    the maximum depth it reports is the height of the highest tree. *)
Theorem stats_depth_is_height (toFixed1_finite : Q -> string)
    (args : Stats.Args) (allTasks : list Task) (forest : list Tree) :
  encodes_forest allTasks forest ->
  exists fuel depths,
    mapM (fun task => Stats.getDepth_fuel allTasks fuel (id task) 0)
         (Stats.topLevelTasks allTasks) = Some depths
    /\ depths ≡ₚ height <$> forest
    /\ max_list depths = max_list (height <$> forest)
    /\ Stats.run_fuel toFixed1_finite args allTasks fuel =
       Some (Stats.report toFixed1_finite args allTasks depths).
Proof.
  intros [Hrec Hdup Hnz Hroots].
  assert (Htop : root <$> forest ≡ₚ topLevel allTasks).
  { unfold topLevel. rewrite Hrec. symmetry.
    apply reflexive_eq, forest_topLevel; [done|]. by rewrite <- Hrec. }
  destruct (getDepth_kids allTasks 0 (fun t => id (root t)) height forest)
    as (fuel & Hfuel).
  { intros t Ht. pose proof (proj1 (Forall_forall _ _) Hroots t Ht) as Henc.
    destruct (getDepth_tree allTasks t 0 0 Henc) as (fuel & Hfuel);
      [|by exists fuel].
    intros task Htask. apply taskMap_lookup_NoDup; [done|].
    rewrite Hrec. apply elem_of_concat. exists (flatten t).
    split; [done|]. by apply list_elem_of_fmap_2. }
  rewrite (list_fmap_compose root id), mapM_fmap_arg in Hfuel.
  destruct (mapM_Permutation _ _ _ _ Htop Hfuel) as (depths & Hdepths & Hp).
  exists fuel, depths. unfold Stats.run_fuel, Stats.topLevelTasks.
  rewrite Hdepths. split; [done|]. split; [done|]. split; [|done].
  by rewrite Hp.
Qed.

Lemma stats_depth_witness :
  exists fuel depths,
    mapM (fun task => Stats.getDepth_fuel sample fuel (id task) 0)
         (Stats.topLevelTasks sample) = Some depths
    /\ depths ≡ₚ height <$> sample_forest
    /\ max_list depths = max_list (height <$> sample_forest)
    /\ Stats.run_fuel (fun _ => "") {| Stats.checklist_id := 7 |} sample fuel =
       Some (Stats.report (fun _ => "") {| Stats.checklist_id := 7 |} sample
               depths).
Proof.
  exact (stats_depth_is_height (fun _ => "") {| Stats.checklist_id := 7 |}
           sample sample_forest sample_encodes_forest).
Defined.
